(** * A shallow embedding of [packages/svelte/src/lib/object.svelte.ts]

    The file holds two fragments:

    - [ObjectClient]: a client that POSTs an input, reads the streamed
      text body chunk by chunk, publishes the partial JSON value parsed
      from the text accumulated so far, and validates the last value
      against a schema when the stream closes;
    - [defaultSettingsMiddleware]: a one-step merge of default settings
      into the parameters of a language-model call.

    [submit] is an [async] function.  It is embedded as a coroutine: the
    code between two [await]s is one segment, run in an error-state monad
    over the client's fields, and the function is suspended at each
    [await] until its environment (fetch, the response, the body stream)
    settles the awaited promise.  The whole body sits in one [try]/[catch],
    so every segment runs under the same handler.  [stop] and further
    [submit] calls may run while a call is suspended; [System] interleaves
    them.

    What the code delegates to other packages (partial JSON parsing, deep
    equality, abort detection, id generation, JSON serialization) is taken
    as a parameter, see [Collaborators].  A callback is given by what
    happens when it is called with an argument: it returns, or it throws;
    each call is recorded with its argument in a trace of effects.  What
    [onFinish] throws leaves the sink's [close], rejects [pipeTo] and so
    reaches the [catch] block; what [onError] throws leaves the [catch]
    block, and [submit] with it.  A callback that makes calls of its own
    on the client it was given to is outside the model. *)

From stdpp Require Import gmap strings list fin_maps pretty.

Set Warnings "-register-all".

(** ** JavaScript data *)

(** Values as the runtime sees them (TypeScript's [RESULT], [INPUT] and
    [DeepPartial<RESULT>] are erased).  Numbers are kept to integers:
    nothing below looks inside one.  A [bigint] stands for the values
    JSON has no text for. *)
Inductive js_value : Type :=
| VUndefined
| VNull
| VBool (b : bool)
| VNum (n : Z)
| VBigInt (n : Z)
| VStr (s : string)
| VArr (items : list js_value)
| VObj (fields : list (string * js_value)).

(** An instance of [Error]. *)
Record js_error : Type := MkError { name : string; message : string }.

(** [new Error(msg)] *)
Definition new_Error (msg : string) : js_error :=
  {| name := "Error"; message := msg |}.

(** What a [throw] or a rejected promise carries: any value; the code
    only asks whether it is an [instanceof Error]. *)
Inductive thrown : Type :=
| ThrownError (e : js_error)
| ThrownValue (v : js_value).

Inductive completion (A : Type) : Type :=
| Normal (a : A)
| Throw (x : thrown).
Arguments Normal {A} a.
Arguments Throw {A} x.

(** [m.get(k)] on a [Map]: [undefined] when the key is absent.  Property
    access on an object literal behaves the same way. *)
Definition map_get (m : gmap string js_value) (k : string) : js_value :=
  default VUndefined (m !! k).

(** [{ ...base, ...over }] on plain objects: the later spread wins. *)
Definition spread {V : Type} (base over : gmap string V) : gmap string V :=
  over ∪ base.

(** ** The collaborators imported from other packages *)

Class Collaborators : Type := {
  (** the id [generateId()] hands to this client *)
  generateId : string;
  (** [isAbortError(error)] *)
  isAbortError : thrown → bool;
  (** the [value] field of [parsePartialJson(text)]; [undefined] when
      the text cannot be repaired into JSON *)
  parsePartialJson : string → js_value;
  (** [isDeepEqualData(a, b)] *)
  isDeepEqualData : js_value → js_value → bool;
  (** [JSON.stringify(input)]: a string, [undefined], or a [TypeError] *)
  JSON_stringify : js_value → completion (option string);
  (** [String(error)] *)
  js_String : js_value → string
}.

(** ** The client *)

Module ObjectClient.

(** The outcome of [safeValidateTypes]: [{ success: true, value }] or
    [{ success: false, error }]. *)
Inductive ValidationResult : Type :=
| Success (value : js_value)
| Failure (error : js_error).

(** [headers?: Record<string, string> | Headers].  A [Headers] instance
    keeps its entries in internal slots: it has no own enumerable
    property, so an object spread copies nothing out of it. *)
Inductive HeadersInit : Type :=
| HeadersRecord (entries : gmap string string)
| HeadersInstance (entries : list (string * string)).

(** [...headers] inside an object literal; spreading [undefined] adds
    nothing. *)
Definition own_enumerable (h : option HeadersInit) : gmap string string :=
  match h with
  | Some (HeadersRecord entries) => entries
  | Some (HeadersInstance _) => ∅
  | None => ∅
  end.

(** The argument of [onFinish]. *)
Record FinishEvent : Type := {
  event_object : js_value;
  event_error : option js_error
}.

(** [Experimental_ObjecClienttOptions].  A schema is given by what
    [safeValidateTypes] answers for it (after [asSchema]); a custom fetch
    by whether it is there; a callback, when it is there, by how a call
    of it ends: it returns ([Normal]; a promise it may return is not
    awaited) or it throws. *)
Record Options : Type := {
  api : option string;
  schema : js_value → ValidationResult;
  id : option string;
  initialValue : js_value;
  fetch : bool;
  onFinish : option (FinishEvent → completion unit);
  onError : option (js_error → completion unit);
  headers : option HeadersInit
}.

(** The second argument of [actualFetch], with the url. *)
Record Request : Type := {
  url : string;
  method : string;
  request_headers : gmap string string;
  signal : nat;
  body : option string
}.

(** What the client reads of a response: [response.ok] and whether
    [response.body] is [null].  The text of the body and its chunks come
    later, when the matching promise settles. *)
Record Response : Type := {
  ok : bool;
  response_body : option nat
}.

Inductive FetchImpl : Type := GlobalFetch | CustomFetch.

(** Calls that leave the client, in the order they are made. *)
Inductive Effect : Type :=
| EFetch (via : FetchImpl) (req : Request)
| EAbort (controller : nat)
| EValidate (value : js_value)
| EOnFinish (event : FinishEvent)
| EOnError (e : js_error).

(** The private fields ([#objects], [#error], [#loading],
    [#abortController]; a trailing underscore stands for the [#]), the
    next [AbortController] to be allocated, the trace, and the calls of
    [set] made on [#objects] so far (each one a write to reactive state,
    whether or not it changes the entry). *)
Record State : Type := {
  objects_ : gmap string js_value;
  error_ : option js_error;
  loading_ : bool;
  abortController_ : option nat;
  next_controller : nat;
  trace : list Effect;
  sets : list (string * js_value)
}.

(** [this.#objects.set(key, value)] *)
Definition objects_set (key : string) (value : js_value) (s : State) : State :=
  {| objects_ := <[key := value]> (objects_ s); error_ := error_ s;
     loading_ := loading_ s; abortController_ := abortController_ s;
     next_controller := next_controller s; trace := trace s;
     sets := sets s ++ [(key, value)] |}.

Definition set_error (e : option js_error) (s : State) : State :=
  {| objects_ := objects_ s; error_ := e; loading_ := loading_ s;
     abortController_ := abortController_ s;
     next_controller := next_controller s; trace := trace s;
     sets := sets s |}.

Definition set_loading (b : bool) (s : State) : State :=
  {| objects_ := objects_ s; error_ := error_ s; loading_ := b;
     abortController_ := abortController_ s;
     next_controller := next_controller s; trace := trace s;
     sets := sets s |}.

Definition set_abortController (c : option nat) (s : State) : State :=
  {| objects_ := objects_ s; error_ := error_ s; loading_ := loading_ s;
     abortController_ := c;
     next_controller := next_controller s; trace := trace s;
     sets := sets s |}.

(** [new AbortController()] *)
Definition alloc_controller (s : State) : nat * State :=
  (next_controller s,
   {| objects_ := objects_ s; error_ := error_ s; loading_ := loading_ s;
      abortController_ := abortController_ s;
      next_controller := S (next_controller s); trace := trace s;
      sets := sets s |}).

Definition emit (e : Effect) (s : State) : State :=
  {| objects_ := objects_ s; error_ := error_ s; loading_ := loading_ s;
     abortController_ := abortController_ s;
     next_controller := next_controller s; trace := trace s ++ [e];
     sets := sets s |}.

(** *** Statements that may throw *)

Definition M (A : Type) : Type := State → completion A * State.

Definition ret {A} (a : A) : M A := λ s, (Normal a, s).

Definition bind {A B} (m : M A) (k : A → M B) : M B :=
  λ s, match m s with
       | (Normal a, s') => k a s'
       | (Throw x, s') => (Throw x, s')
       end.

Definition throw {A} (x : thrown) : M A := λ s, (Throw x, s).

Definition exec (f : State → State) : M unit := λ s, (Normal tt, f s).

Definition lift {A} (c : completion A) : M A := λ s, (c, s).

Notation "'let!' x ':=' m 'in' k" := (bind m (λ x, k))
  (at level 10, x name, m at level 100, k at level 200).
Notation "m >>> k" := (bind m (λ _, k))
  (at level 90, right associativity).

(** *** Where an [async] call waits *)

(** The three [await]s of [submit]: the fetch, [response.text()] of a
    response that is not ok, and [pipeTo], during which the sink is
    called back; [accumulatedText] and [latestObject] are the two locals
    the sink closes over. *)
Inductive Await : Type :=
| AwaitFetch
| AwaitText
| AwaitPipeTo (accumulatedText : string) (latestObject : js_value).

(** How the environment answers a suspended call.  [PipeChunk] and
    [PipeClosed] are the sink's [write] and [close] being called;
    [Rejected] is the awaited promise rejecting (for [pipeTo]: the
    source erroring, for instance on abort). *)
Inductive Settled : Type :=
| FetchResolved (response : Response)
| TextResolved (text : option string)
| PipeChunk (chunk : string)
| PipeClosed
| Rejected (reason : thrown).

(** Where a call stands after a segment: waiting again, returned, or
    ended by what the [catch] block itself threw (the promise of
    [submit] is then rejected). *)
Inductive Progress : Type :=
| Suspended (at_ : Await)
| Returned
| Thrown (reason : thrown).

Section Client.

Context `{Collaborators} (options_ : Options).

(** [#api = $derived(this.#options.api ?? "/api/completion")] *)
Definition api_ : string := default "/api/completion" (api options_).

(** [#id = $derived(this.#options.id ?? generateId())].  The derived
    value depends on no reactive state: it is computed once. *)
Definition id_ : string := default generateId (id options_).

(** [get object()] *)
Definition object (s : State) : js_value := map_get (objects_ s) id_.

(** [get error()] *)
Definition error (s : State) : option js_error := error_ s.

(** [get loading()] *)
Definition loading (s : State) : bool := loading_ s.

(** The field initializers followed by the constructor's body. *)
Definition constructor : State :=
  objects_set id_ (initialValue options_)
    {| objects_ := ∅; error_ := None; loading_ := false;
       abortController_ := None; next_controller := 0; trace := [];
       sets := [] |}.

(** [stop]: [abort()] is called on the controller if there is one, what
    it may throw is swallowed, and the [finally] block always runs. *)
Definition stop (s : State) : State :=
  let s := match abortController_ s with
           | Some controller => emit (EAbort controller) s
           | None => s
           end in
  let s := set_loading false s in
  set_abortController None s.

Definition safeValidateTypes (value : js_value)
    (sch : js_value → ValidationResult) : ValidationResult :=
  sch value.

(** [submit] up to its first [await]. *)
Definition submit_entry (input : js_value) : M Progress :=
  exec (objects_set id_ VUndefined) >>>
  exec (set_loading true) >>>
  exec (set_error None) >>>
  let! controller := (λ s, let (c, s') := alloc_controller s in (Normal c, s')) in
  exec (set_abortController (Some controller)) >>>
  let actualFetch := if fetch options_ then CustomFetch else GlobalFetch in
  let! text := lift (JSON_stringify input) in
  exec (emit (EFetch actualFetch
    {| url := api_;
       method := "POST";
       request_headers :=
         spread {[ "Content-Type" := "application/json" ]}
                (own_enumerable (headers options_));
       signal := controller;
       body := text |})) >>>
  ret (Suspended AwaitFetch).

(** The sink's [write]. *)
Definition write (chunk : string) (accumulatedText : string)
    (latestObject : js_value) : M (string * js_value) :=
  let accumulatedText := String.append accumulatedText chunk in
  let currentObject := parsePartialJson accumulatedText in
  if negb (isDeepEqualData latestObject currentObject) then
    exec (objects_set id_ currentObject) >>>
    ret (accumulatedText, currentObject)
  else
    ret (accumulatedText, latestObject).

(** A call of a callback: recorded, then it returns or throws. *)
Definition call_back {A} (record : A → Effect)
    (callback : A → completion unit) (argument : A) : M unit :=
  exec (emit (record argument)) >>> lift (callback argument).

(** The sink's [close].  What [onFinish] throws is thrown by [close]. *)
Definition close (latestObject : js_value) : M unit :=
  exec (set_loading false) >>>
  exec (set_abortController None) >>>
  match onFinish options_ with
  | Some callback =>
      exec (emit (EValidate latestObject)) >>>
      let validationResult :=
        safeValidateTypes latestObject (schema options_) in
      call_back EOnFinish callback
        match validationResult with
        | Success value => {| event_object := value; event_error := None |}
        | Failure err =>
            {| event_object := VUndefined; event_error := Some err |}
        end
  | None => ret tt
  end.

(** [submit] from one [await] to the next. *)
Definition continue_ (at_ : Await) (r : Settled) : M Progress :=
  match at_, r with
  | _, Rejected reason => throw reason
  | AwaitFetch, FetchResolved response =>
      if negb (ok response) then
        ret (Suspended AwaitText)
      else if response_body response is None then
        throw (ThrownError (new_Error "The response body is empty."))
      else
        ret (Suspended (AwaitPipeTo "" VUndefined))
  | AwaitText, TextResolved text =>
      throw (ThrownError
        (new_Error (default "Failed to fetch the response." text)))
  | AwaitPipeTo accumulatedText latestObject, PipeChunk chunk =>
      let! locals := write chunk accumulatedText latestObject in
      ret (Suspended (AwaitPipeTo locals.1 locals.2))
  | AwaitPipeTo _ latestObject, PipeClosed =>
      close latestObject >>> ret Returned
  | _, _ => ret (Suspended at_)
  end.

(** The [catch] block.  What [onError] throws is thrown by the block,
    before [#loading] and [#error] are written. *)
Definition catch_block (reason : thrown) : M unit :=
  if isAbortError reason then ret tt
  else
    let coalescedError :=
      match reason with
      | ThrownError e => e
      | ThrownValue v => new_Error (js_String v)
      end in
    match onError options_ with
    | Some callback => call_back EOnError callback coalescedError
    | None => ret tt
    end >>>
    exec (set_loading false) >>>
    exec (set_error (Some coalescedError)).

(** The fields after the [catch] block. *)
Definition catch_ (reason : thrown) (s : State) : State :=
  (catch_block reason s).2.

(** How a call that reached the [catch] block ends. *)
Definition ended (reason : thrown) (s : State) : Progress :=
  match (catch_block reason s).1 with
  | Normal _ => Returned
  | Throw escaped => Thrown escaped
  end.

(** A segment of the body under the [try]: what it throws ends the call
    in the [catch] block. *)
Definition try_catch (m : M Progress) (s : State) : Progress * State :=
  match m s with
  | (Normal p, s') => (p, s')
  | (Throw reason, s') => (ended reason s', catch_ reason s')
  end.

Definition submit (input : js_value) : State → Progress * State :=
  try_catch (submit_entry input).

Definition resume (at_ : Await) (r : Settled) : State → Progress * State :=
  try_catch (continue_ at_ r).

(** *** Calls in flight *)

(** A client together with its [submit] calls that have not returned
    yet, each waiting at some [await].  Nothing in the class keeps an
    earlier call from running on after a later one has started. *)
Record System : Type := {
  client : State;
  calls : gmap nat Await;
  next_call : nat
}.

Inductive Event : Type :=
| CallSubmit (input : js_value)
| CallStop
| Settle (call : nat) (r : Settled).

Definition park (call : nat) (p : Progress) (pending : gmap nat Await)
    : gmap nat Await :=
  match p with
  | Suspended at_ => <[call := at_]> pending
  | Returned | Thrown _ => delete call pending
  end.

Definition step (sys : System) (ev : Event) : System :=
  match ev with
  | CallSubmit input =>
      let (p, s) := submit input (client sys) in
      {| client := s;
         calls := park (next_call sys) p (calls sys);
         next_call := S (next_call sys) |}
  | CallStop =>
      {| client := stop (client sys);
         calls := calls sys;
         next_call := next_call sys |}
  | Settle call r =>
      match calls sys !! call with
      | Some at_ =>
          let (p, s) := resume at_ r (client sys) in
          {| client := s;
             calls := park call p (calls sys);
             next_call := next_call sys |}
      | None => sys
      end
  end.

Definition run (sys : System) (evs : list Event) : System :=
  foldl step sys evs.

(** [new ObjectClient(options)] *)
Definition boot : System :=
  {| client := constructor; calls := ∅; next_call := 0 |}.

(** *** Notions used to state the properties *)

(** The state in which [submit] makes its request: the stored object
    reset, [loading] set, [error] cleared and a fresh controller in
    place. *)
Definition armed (s : State) : State :=
  set_abortController (Some (next_controller s))
    (alloc_controller
       (set_error None
          (set_loading true (objects_set id_ VUndefined s)))).2.

(** The request [submit] builds once the input is serialized. *)
Definition request_for (controller : nat) (text : option string) : Request :=
  {| url := api_;
     method := "POST";
     request_headers :=
       spread {[ "Content-Type" := "application/json" ]}
              (own_enumerable (headers options_));
     signal := controller;
     body := text |}.

Definition actualFetch : FetchImpl :=
  if fetch options_ then CustomFetch else GlobalFetch.

(** [coalescedError] of the [catch] block. *)
Definition coalesce (reason : thrown) : js_error :=
  match reason with
  | ThrownError e => e
  | ThrownValue v => new_Error (js_String v)
  end.

(** The call of [onError], if the option is there. *)
Definition reported (e : js_error) : list Effect :=
  if onError options_ is Some _ then [EOnError e] else [].

(** The argument [close] builds for [onFinish]. *)
Definition finish_event_of (r : ValidationResult) : FinishEvent :=
  match r with
  | Success value => {| event_object := value; event_error := None |}
  | Failure err => {| event_object := VUndefined; event_error := Some err |}
  end.

(** What [close] lets out of the client. *)
Definition finished (latestObject : js_value) : list Effect :=
  if onFinish options_ is Some _ then
    [EValidate latestObject;
     EOnFinish (finish_event_of (schema options_ latestObject))]
  else [].

(** The values handed to [safeValidateTypes], in order. *)
Definition validations (tr : list Effect) : list js_value :=
  omap (λ e, match e with EValidate v => Some v | _ => None end) tr.

(** The inputs of the [submit] calls among some events. *)
Definition submitted (evs : list Event) : list js_value :=
  omap (λ ev, match ev with CallSubmit input => Some input | _ => None end)
       evs.

(** The sink's two locals after one more chunk. *)
Definition absorb (locals : string * js_value) (chunk : string)
    : string * js_value :=
  let text := String.append locals.1 chunk in
  let currentObject := parsePartialJson text in
  (text,
   if isDeepEqualData locals.2 currentObject then locals.2
   else currentObject).

(** Whether a call of [onError] with [e] comes back: there is no
    callback, or the callback returns. *)
Definition onError_returns (e : js_error) : bool :=
  match onError options_ with
  | Some callback => if callback e is Normal _ then true else false
  | None => true
  end.

(** The errors handed to [onError], in order. *)
Definition onError_calls (tr : list Effect) : list js_error :=
  omap (λ e, match e with EOnError err => Some err | _ => None end) tr.

(** The arguments of [onFinish], in order. *)
Definition onFinish_calls (tr : list Effect) : list FinishEvent :=
  omap (λ e, match e with EOnFinish event => Some event | _ => None end) tr.

(** The call [call] has ended in the [catch] block with the failure
    [e]: it is no longer pending and [onFinish] was not called; [e] was
    handed to [onError] if the callback is there; if [onError] came back,
    or there is none, [e] is stored and [loading] cleared; and without
    an [onError] nothing left the client and the stored objects are as
    before. *)
Definition failed (call : nat) (e : js_error) (before after : System) : Prop :=
  calls after !! call = None ∧
  onFinish_calls (trace (client after)) =
    onFinish_calls (trace (client before)) ∧
  (is_Some (onError options_) → e ∈ onError_calls (trace (client after))) ∧
  (onError_returns e = true →
   error (client after) = Some e ∧ loading (client after) = false) ∧
  (onError options_ = None →
   trace (client after) = trace (client before) ∧
   objects_ (client after) = objects_ (client before)).

(** Where an effect in the trace comes from: a request from the
    [submit] of one of [inputs], the argument of [onFinish] from the
    validation of some value. *)
Definition explained (inputs : list js_value) (e : Effect) : Prop :=
  match e with
  | EFetch via req =>
      ∃ input controller text,
        input ∈ inputs ∧ JSON_stringify input = Normal text ∧
        via = actualFetch ∧ req = request_for controller text
  | EOnFinish event =>
      ∃ latestObject,
        event = finish_event_of (schema options_ latestObject)
  | _ => True
  end.

(** One call, alone, on a stream that delivers [chunks]: the events up
    to the last chunk. *)
Definition streaming (call : nat) (input : js_value) (response : Response)
    (chunks : list string) : list Event :=
  CallSubmit input :: Settle call (FetchResolved response) ::
  ((λ chunk, Settle call (PipeChunk chunk)) <$> chunks).

End Client.

End ObjectClient.

(** ** The default-settings middleware *)

Module DefaultSettings.

(** The part of [LanguageModelV1Middleware] the function fills in.
    [transformParams] is handed [{ params }]; call options and settings
    are plain objects. *)
Record LanguageModelV1Middleware : Type := {
  middlewareVersion : string;
  transformParams : gmap string js_value → gmap string js_value
}.

Section Middleware.

(** [mergeObjects] is imported from [../util/merge-objects], a file that
    is not among the sources: the middleware is read for any such
    function. *)
Context (mergeObjects : js_value → js_value → js_value).

Definition defaultSettingsMiddleware (settings : gmap string js_value)
    : LanguageModelV1Middleware :=
  {| middlewareVersion := "v1";
     transformParams := λ params,
       <[ "providerMetadata" :=
            mergeObjects (map_get settings "providerMetadata")
                         (map_get params "providerMetadata") ]>
         (spread settings params) |}.

End Middleware.

(** Modelled from the spec: [mergeObjects], of [../util/merge-objects],
    is missing from the sources.  The claim about the middleware calls it
    a merge of the two provider-metadata objects in which the entries of
    the second override those of the first; an [undefined] side leaves
    the other one as it is. *)
Definition mergeObjects_spec (target source : js_value) : js_value :=
  match target, source with
  | VUndefined, _ => source
  | _, VUndefined => target
  | VObj t, VObj s =>
      VObj (filter (λ kv, bool_decide (kv.1 ∉ s.*1)) t ++ s)
  | _, _ => source
  end.

End DefaultSettings.

(** ** Stand-ins for the imports, to run the client on integer payloads *)

Module Sample.

Fixpoint value_eqb (a b : js_value) {struct a} : bool :=
  match a, b with
  | VUndefined, VUndefined => true
  | VNull, VNull => true
  | VBool x, VBool y => bool_decide (x = y)
  | VNum x, VNum y => bool_decide (x = y)
  | VBigInt x, VBigInt y => bool_decide (x = y)
  | VStr x, VStr y => bool_decide (x = y)
  | VArr xs, VArr ys =>
      (fix all2 (xs ys : list js_value) {struct xs} : bool :=
         match xs, ys with
         | [], [] => true
         | x :: xs', y :: ys' => value_eqb x y && all2 xs' ys'
         | _, _ => false
         end) xs ys
  | VObj xs, VObj ys =>
      (fix all2 (xs ys : list (string * js_value)) {struct xs} : bool :=
         match xs, ys with
         | [], [] => true
         | (k, x) :: xs', (l, y) :: ys' =>
             bool_decide (k = l) && value_eqb x y && all2 xs' ys'
         | _, _ => false
         end) xs ys
  | _, _ => false
  end.

Definition digit (c : Ascii.ascii) : option Z :=
  let n := Z.of_nat (Ascii.nat_of_ascii c) in
  if bool_decide (48 ≤ n ≤ 57)%Z then Some (n - 48)%Z else None.

Fixpoint digits (acc : Z) (text : string) : option Z :=
  match text with
  | EmptyString => Some acc
  | String c rest =>
      match digit c with
      | Some d => digits (10 * acc + d)%Z rest
      | None => None
      end
  end.

(** A text that is an unsigned integer literal, or a prefix of one,
    parses to that number; any other text is taken as not repairable. *)
Definition parse_integer (text : string) : js_value :=
  match text with
  | EmptyString => VUndefined
  | _ => match digits 0 text with
         | Some n => VNum n
         | None => VUndefined
         end
  end.

(** *** [JSON.stringify] *)

Definition quote_mark : string := String (Ascii.ascii_of_nat 34) EmptyString.

Definition hex_digit (n : nat) : string :=
  String (Ascii.ascii_of_nat (if decide (n < 10) then 48 + n else 87 + n))
         EmptyString.

(** One character inside a JSON string: the quote, the backslash and
    the control characters are escaped. *)
Definition escape_char (c : Ascii.ascii) : string :=
  let n := Ascii.nat_of_ascii c in
  if decide (n = 34) then "\" +:+ quote_mark
  else if decide (n = 92) then "\\"
  else if decide (n = 8) then "\b"
  else if decide (n = 9) then "\t"
  else if decide (n = 10) then "\n"
  else if decide (n = 12) then "\f"
  else if decide (n = 13) then "\r"
  else if decide (n < 32) then
    "\u00" +:+ hex_digit (n `div` 16) +:+ hex_digit (n `mod` 16)
  else String c EmptyString.

Fixpoint escape (text : string) : string :=
  match text with
  | EmptyString => EmptyString
  | String c rest => escape_char c +:+ escape rest
  end.

Definition quoted (text : string) : string :=
  quote_mark +:+ escape text +:+ quote_mark.

Definition join (pieces : list string) : string :=
  match pieces with
  | [] => EmptyString
  | first :: rest => foldl (λ acc piece, acc +:+ "," +:+ piece) first rest
  end.

Definition bigint_error : thrown :=
  ThrownError {| name := "TypeError";
                 message := "Do not know how to serialize a BigInt" |}.

(** [JSON.stringify(value)] without replacer or indentation: the text,
    [undefined] for [undefined], or the [TypeError] a [bigint] anywhere
    in the value raises.  In an array [undefined] becomes [null]; in an
    object a property that is [undefined] is left out. *)
Fixpoint stringify (v : js_value) : completion (option string) :=
  match v with
  | VUndefined => Normal None
  | VNull => Normal (Some "null")
  | VBool true => Normal (Some "true")
  | VBool false => Normal (Some "false")
  | VNum n => Normal (Some (pretty n))
  | VBigInt _ => Throw bigint_error
  | VStr text => Normal (Some (quoted text))
  | VArr items =>
      match
        (fix each (items : list js_value) : completion (list string) :=
           match items with
           | [] => Normal []
           | item :: rest =>
               match stringify item with
               | Throw x => Throw x
               | Normal text =>
                   match each rest with
                   | Throw x => Throw x
                   | Normal texts => Normal (default "null" text :: texts)
                   end
               end
           end) items
      with
      | Throw x => Throw x
      | Normal texts => Normal (Some ("[" +:+ join texts +:+ "]"))
      end
  | VObj fields =>
      match
        (fix each (fields : list (string * js_value))
           : completion (list string) :=
           match fields with
           | [] => Normal []
           | (key, value) :: rest =>
               match stringify value with
               | Throw x => Throw x
               | Normal text =>
                   match each rest with
                   | Throw x => Throw x
                   | Normal texts =>
                       Normal (match text with
                               | Some t => (quoted key +:+ ":" +:+ t) :: texts
                               | None => texts
                               end)
                   end
               end
           end) fields
      with
      | Throw x => Throw x
      | Normal texts => Normal (Some ("{" +:+ join texts +:+ "}"))
      end
  end.

(** *** [String(value)] *)

(** [String(value)]: an array joins the strings of its elements, with
    nothing for [null] and [undefined]; a plain object is
    ["[object Object]"]. *)
Fixpoint to_string (v : js_value) : string :=
  match v with
  | VUndefined => "undefined"
  | VNull => "null"
  | VBool true => "true"
  | VBool false => "false"
  | VNum n => pretty n
  | VBigInt n => pretty n
  | VStr text => text
  | VArr items =>
      join ((fix each (items : list js_value) : list string :=
               match items with
               | [] => []
               | item :: rest =>
                   match item with
                   | VUndefined | VNull => EmptyString
                   | _ => to_string item
                   end :: each rest
               end) items)
  | VObj _ => "[object Object]"
  end.

Definition named_abort (x : thrown) : bool :=
  match x with
  | ThrownError e => bool_decide (name e = "AbortError")
  | ThrownValue _ => false
  end.

#[export] Instance collaborators : Collaborators := {|
  generateId := "generated-id";
  isAbortError := named_abort;
  parsePartialJson := parse_integer;
  isDeepEqualData := value_eqb;
  JSON_stringify := stringify;
  js_String := to_string
|}.

(** A callback that does nothing. *)
Definition quiet {A} (argument : A) : completion unit := Normal tt.


(** An [onError] that throws. *)
Definition complain (e : js_error) : completion unit :=
  Throw (ThrownValue (VStr "onError failed")).

(** A schema that accepts exactly the numbers. *)
Definition number_schema (v : js_value) : ObjectClient.ValidationResult :=
  match v with
  | VNum _ => ObjectClient.Success v
  | _ => ObjectClient.Failure {| name := "AI_TypeValidationError";
                                 message := "expected a number" |}
  end.

(** A schema without a validator ([jsonSchema(...)] with no [validate]):
    every value is accepted as it is. *)
Definition any_schema (v : js_value) : ObjectClient.ValidationResult :=
  ObjectClient.Success v.

Definition abortError : thrown :=
  ThrownError {| name := "AbortError";
                 message := "The operation was aborted." |}.

(** A client with both callbacks, a number schema and one extra header. *)
Definition options : ObjectClient.Options :=
  {| ObjectClient.api := Some "/api/object";
     ObjectClient.schema := number_schema;
     ObjectClient.id := Some "client";
     ObjectClient.initialValue := VUndefined;
     ObjectClient.fetch := false;
     ObjectClient.onFinish := Some quiet;
     ObjectClient.onError := Some quiet;
     ObjectClient.headers :=
       Some (ObjectClient.HeadersRecord {[ "Authorization" := "Bearer t" ]}) |}.

(** The same without an [onFinish] callback. *)
Definition quiet_options : ObjectClient.Options :=
  {| ObjectClient.api := Some "/api/object";
     ObjectClient.schema := number_schema;
     ObjectClient.id := Some "client";
     ObjectClient.initialValue := VUndefined;
     ObjectClient.fetch := false;
     ObjectClient.onFinish := None;
     ObjectClient.onError := Some quiet;
     ObjectClient.headers := None |}.

(** With a schema that has no validator. *)
Definition lenient_options : ObjectClient.Options :=
  {| ObjectClient.api := Some "/api/object";
     ObjectClient.schema := any_schema;
     ObjectClient.id := Some "client";
     ObjectClient.initialValue := VUndefined;
     ObjectClient.fetch := false;
     ObjectClient.onFinish := Some quiet;
     ObjectClient.onError := Some quiet;
     ObjectClient.headers := None |}.

(** With a content type of its own among the additional headers. *)
Definition plain_text_options : ObjectClient.Options :=
  {| ObjectClient.api := Some "/api/object";
     ObjectClient.schema := number_schema;
     ObjectClient.id := Some "client";
     ObjectClient.initialValue := VUndefined;
     ObjectClient.fetch := false;
     ObjectClient.onFinish := Some quiet;
     ObjectClient.onError := Some quiet;
     ObjectClient.headers :=
       Some (ObjectClient.HeadersRecord {[ "Content-Type" := "text/plain" ]}) |}.

(** With the additional headers in a [Headers] instance. *)
Definition headers_instance_options : ObjectClient.Options :=
  {| ObjectClient.api := Some "/api/object";
     ObjectClient.schema := number_schema;
     ObjectClient.id := Some "client";
     ObjectClient.initialValue := VUndefined;
     ObjectClient.fetch := false;
     ObjectClient.onFinish := Some quiet;
     ObjectClient.onError := Some quiet;
     ObjectClient.headers :=
       Some (ObjectClient.HeadersInstance [("Authorization", "Bearer t")]) |}.

Definition ok_response : ObjectClient.Response :=
  {| ObjectClient.ok := true; ObjectClient.response_body := Some 0 |}.

Definition not_found : ObjectClient.Response :=
  {| ObjectClient.ok := false; ObjectClient.response_body := Some 0 |}.

Definition no_body : ObjectClient.Response :=
  {| ObjectClient.ok := true; ObjectClient.response_body := None |}.

(** One call, waiting for its response. *)
Definition waiting : ObjectClient.System :=
  ObjectClient.run options (ObjectClient.boot options)
    [ObjectClient.CallSubmit (VNum 7)].

(** The response has come, the stream has delivered nothing yet. *)
Definition connected : ObjectClient.System :=
  ObjectClient.run options waiting
    [ObjectClient.Settle 0 (ObjectClient.FetchResolved ok_response)].

(** The stream has delivered the chunk ["4"]. *)
Definition mid_stream : ObjectClient.System :=
  ObjectClient.run options connected
    [ObjectClient.Settle 0 (ObjectClient.PipeChunk "4")].

(** A whole call: the stream delivers [chunks] and closes. *)
Definition whole_call (chunks : list string) : list ObjectClient.Event :=
  ObjectClient.streaming 0 (VNum 7) ok_response chunks ++
  [ObjectClient.Settle 0 ObjectClient.PipeClosed].

End Sample.

(** ** Further notions, for whole runs of a client *)

Module Observations.
Import ObjectClient.

(** The requests among the effects, in order. *)
Definition requests (tr : list Effect) : list Request :=
  omap (λ e, match e with EFetch _ req => Some req | _ => None end) tr.

(** The controllers [abort()] was called on, in order. *)
Definition aborted (tr : list Effect) : list nat :=
  omap (λ e, match e with EAbort controller => Some controller | _ => None end)
       tr.

(** The chunks of a stream, appended in the order they came. *)
Definition received (chunks : list string) : string :=
  foldl String.append EmptyString chunks.

Section Client.

Context `{Collaborators} (options_ : Options).

(** The bodies [JSON.stringify] gives for the inputs it accepts. *)
Definition serializations (inputs : list js_value) : list (option string) :=
  omap (λ input, match JSON_stringify input with
                 | Normal text => Some text
                 | Throw _ => None
                 end) inputs.

(** An error the [catch] block lets through: what it made of a thrown
    value that is not an abort. *)
Definition surfaced (e : js_error) : Prop :=
  ∃ reason, isAbortError reason = false ∧ e = coalesce reason.

(** What the fields keep about errors: each error handed to [onError],
    and the stored one, is what the [catch] block made of something that
    was not an abort; and the stored one was handed to [onError] if the
    callback is there. *)
Definition errors_accounted (s : State) : Prop :=
  Forall (surfaced) (onError_calls (trace s)) ∧
  ∀ e, error s = Some e →
       surfaced e ∧
       (is_Some (onError options_) → e ∈ onError_calls (trace s)).

(** What the fields keep about controllers: every request carries the
    signal of a controller allocated before, no two requests the same
    one, and the current controller, when there is one, is the one
    allocated last. *)
Definition controllers_in_order (s : State) : Prop :=
  Forall (λ req, signal req < next_controller s) (requests (trace s)) ∧
  NoDup (signal <$> requests (trace s)) ∧
  ∀ controller,
    abortController_ s = Some controller → S controller = next_controller s.

(** How the call of [onFinish] at the close of a stream ends. *)
Definition onFinish_outcome (latestObject : js_value) : completion unit :=
  match onFinish options_ with
  | Some callback => callback (finish_event_of (schema options_ latestObject))
  | None => Normal tt
  end.

(** The fields once [onError] has been called with [e], if it is there. *)
Definition notified (e : js_error) (s : State) : State :=
  {| objects_ := objects_ s;
     error_ := error_ s;
     loading_ := loading_ s;
     abortController_ := abortController_ s;
     next_controller := next_controller s;
     trace := trace s ++ reported options_ e;
     sets := sets s |}.

(** The fields after the sink's [close]. *)
Definition closed (latestObject : js_value) (s : State) : State :=
  {| objects_ := objects_ s;
     error_ := error_ s;
     loading_ := false;
     abortController_ := None;
     next_controller := next_controller s;
     trace := trace s ++ finished options_ latestObject;
     sets := sets s |}.

(** One call, alone, from [submit] to the close of its stream. *)
Definition completed (call : nat) (input : js_value) (response : Response)
    (chunks : list string) : list Event :=
  streaming call input response chunks ++ [Settle call PipeClosed].

End Client.

End Observations.

(** ** More runs of the sample client *)

Module Scenarios.
Import ObjectClient Sample.

(** A thrown value that is not an [Error]. *)
Definition offline : thrown := ThrownValue (VStr "offline").

(** An input JSON has no text for: an object holding a [bigint]. *)
Definition unserializable : js_value :=
  VObj [("count", VBigInt 1)].

(** A call answered by a 404 whose text is ["gone"]. *)
Definition failing_call : list Event :=
  [CallSubmit (VNum 7);
   Settle 0 (FetchResolved not_found);
   Settle 0 (TextResolved (Some "gone"))].

(** Two calls started one after the other. *)
Definition two_submits : list Event :=
  [CallSubmit (VNum 7); CallSubmit (VNum 8)].



(** The sample client with an [onError] that throws. *)
Definition complaining_options : Options :=
  {| api := Some "/api/object";
     schema := number_schema;
     id := Some "client";
     initialValue := VUndefined;
     fetch := false;
     onFinish := Some quiet;
     onError := Some complain;
     headers := None |}.

(** A call answered by a 404 whose text cannot be read any more: the
    read is aborted. *)
Definition aborted_read : list Event :=
  [CallSubmit (VNum 7);
   Settle 0 (FetchResolved not_found);
   Settle 0 (Rejected abortError)].


End Scenarios.

(** * Properties of the client *)

Module ObjectClientFacts.
Import ObjectClient Observations.

(** Unfolds one segment of the client down to record updates. *)
Ltac run_segment :=
  unfold submit, resume, try_catch, submit_entry, continue_, write, close,
    call_back, safeValidateTypes, bind, ret, exec, throw, lift; simpl.

(** Unfolds the field updates. *)
Ltac fields :=
  unfold emit, set_abortController, set_loading, set_error, objects_set,
    alloc_controller; simpl.

Section Facts.

Context `{Collaborators} (options_ : Options).

#[local] Abbreviation object := (object options_).
#[local] Abbreviation submit := (submit options_).
#[local] Abbreviation resume := (resume options_).
#[local] Abbreviation step := (step options_).
#[local] Abbreviation run := (run options_).
#[local] Abbreviation boot := (boot options_).
#[local] Abbreviation id_ := (id_ options_).
#[local] Abbreviation api_ := (api_ options_).
#[local] Abbreviation catch_ := (catch_ options_).
#[local] Abbreviation armed := (armed options_).
#[local] Abbreviation request_for := (request_for options_).
#[local] Abbreviation actualFetch := (actualFetch options_).
#[local] Abbreviation reported := (reported options_).
#[local] Abbreviation finished := (finished options_).

(** ** The segments, one equation each *)

Lemma submit_unfold input s :
  submit input s =
  match JSON_stringify input with
  | Normal text =>
      (Suspended AwaitFetch,
       emit (EFetch actualFetch (request_for (next_controller s) text))
            (armed s))
  | Throw reason => (ended options_ reason (armed s), catch_ reason (armed s))
  end.
Proof. run_segment. destruct (JSON_stringify input); reflexivity. Qed.

Lemma resume_rejected at_ reason s :
  resume at_ (Rejected reason) s = (ended options_ reason s, catch_ reason s).
Proof. destruct at_; reflexivity. Qed.

Lemma resume_chunk accumulatedText latestObject chunk s :
  resume (AwaitPipeTo accumulatedText latestObject) (PipeChunk chunk) s =
  let text := String.append accumulatedText chunk in
  let currentObject := parsePartialJson text in
  if isDeepEqualData latestObject currentObject then
    (Suspended (AwaitPipeTo text latestObject), s)
  else
    (Suspended (AwaitPipeTo text currentObject),
     objects_set id_ currentObject s).
Proof.
  run_segment.
  by destruct (isDeepEqualData latestObject _).
Qed.

(** The close of a stream: [close] runs, and what [onFinish] throws goes
    on to the [catch] block. *)
Lemma resume_closed accumulatedText latestObject s :
  resume (AwaitPipeTo accumulatedText latestObject) PipeClosed s =
  match onFinish_outcome options_ latestObject with
  | Normal _ => (Returned, closed options_ latestObject s)
  | Throw thrown_ =>
      (ended options_ thrown_ (closed options_ latestObject s),
       catch_ thrown_ (closed options_ latestObject s))
  end.
Proof.
  run_segment.
  unfold onFinish_outcome, closed, ObjectClient.finished, finish_event_of.
  destruct (onFinish options_) as [callback|]; simpl.
  - assert (∀ event,
      emit (EOnFinish event)
        (emit (EValidate latestObject)
           (set_abortController None (set_loading false s))) =
      {| objects_ := objects_ s; error_ := error_ s; loading_ := false;
         abortController_ := None; next_controller := next_controller s;
         trace := trace s ++ [EValidate latestObject; EOnFinish event];
         sets := sets s |}) as Hstate
      by (intros event; fields; by rewrite <- app_assoc).
    destruct (schema options_ latestObject) as [value|err]; simpl;
      rewrite Hstate; by destruct (callback _).
  - fields. by rewrite app_nil_r.
Qed.

Lemma closed_cases accumulatedText latestObject s :
  (resume (AwaitPipeTo accumulatedText latestObject) PipeClosed s).2 =
    closed options_ latestObject s ∨
  ∃ thrown_,
    (resume (AwaitPipeTo accumulatedText latestObject) PipeClosed s).2 =
    catch_ thrown_ (closed options_ latestObject s).
Proof.
  rewrite resume_closed.
  destruct (onFinish_outcome options_ latestObject) as [[]|thrown_];
    [by left | right; by exists thrown_].
Qed.

Lemma resume_not_ok response s :
  ok response = false →
  resume AwaitFetch (FetchResolved response) s = (Suspended AwaitText, s).
Proof. intros E. run_segment. by rewrite E. Qed.

Lemma resume_no_body response s :
  ok response = true → response_body response = None →
  resume AwaitFetch (FetchResolved response) s =
  (ended options_ (ThrownError (new_Error "The response body is empty.")) s,
   catch_ (ThrownError (new_Error "The response body is empty.")) s).
Proof. intros E1 E2. run_segment. by rewrite E1, E2. Qed.

Lemma resume_body response stream s :
  ok response = true → response_body response = Some stream →
  resume AwaitFetch (FetchResolved response) s =
  (Suspended (AwaitPipeTo EmptyString VUndefined), s).
Proof. intros E1 E2. run_segment. by rewrite E1, E2. Qed.

Lemma resume_text text s :
  resume AwaitText (TextResolved text) s =
  (ended options_
     (ThrownError (new_Error (default "Failed to fetch the response." text))) s,
   catch_ (ThrownError
             (new_Error (default "Failed to fetch the response." text))) s).
Proof. reflexivity. Qed.

(** A call that reached the [catch] block is no longer pending. *)
Lemma park_ended call reason s pending :
  park call (ended options_ reason s) pending = delete call pending.
Proof. unfold ended. by destruct (catch_block options_ reason s).1. Qed.

(** ** The [catch] block *)

Lemma catch_abort reason s : isAbortError reason = true → catch_ reason s = s.
Proof.
  intros E. unfold ObjectClient.catch_, catch_block. by rewrite E.
Qed.


(** Anything but an abort: [onError] is called if it is there; the
    two fields are written if it comes back. *)
Lemma catch_failure reason s :
  isAbortError reason = false →
  catch_ reason s =
  if onError_returns options_ (coalesce reason) then
    set_error (Some (coalesce reason))
      (set_loading false (notified options_ (coalesce reason) s))
  else notified options_ (coalesce reason) s.
Proof.
  intros E.
  unfold ObjectClient.catch_, catch_block, onError_returns, notified,
    ObjectClient.reported, call_back, bind, exec, lift, ret, coalesce.
  rewrite E.
  destruct (onError options_) as [callback|]; simpl.
  - by destruct (callback _).
  - fields. by rewrite app_nil_r.
Qed.

Lemma ended_failure reason s :
  isAbortError reason = false →
  onError_returns options_ (coalesce reason) = true →
  ended options_ reason s = Returned.
Proof.
  intros E. unfold ended, catch_block, onError_returns, call_back, bind,
    exec, lift, ret, coalesce.
  rewrite E.
  destruct (onError options_) as [callback|]; simpl; [|done].
  by destruct (callback _).
Qed.

Lemma objects_catch reason s : objects_ (catch_ reason s) = objects_ s.
Proof.
  destruct (isAbortError reason) eqn:E.
  - by rewrite catch_abort.
  - rewrite catch_failure by done.
    by destruct (onError_returns options_ _).
Qed.

Lemma trace_catch reason s :
  trace (catch_ reason s) =
  trace s ++ (if isAbortError reason then [] else reported (coalesce reason)).
Proof.
  destruct (isAbortError reason) eqn:E.
  - by rewrite catch_abort, app_nil_r.
  - rewrite catch_failure by done.
    by destruct (onError_returns options_ _).
Qed.

(** The [catch] block adds nothing to what is read off the trace
    without looking at the calls of [onError]. *)
Lemma omap_catch {A} (f : Effect → option A) reason s :
  (∀ e, f (EOnError e) = None) →
  omap f (trace (catch_ reason s)) = omap f (trace s).
Proof.
  intros Hf. rewrite trace_catch, omap_app.
  replace (omap f (if isAbortError reason then [] else _)) with (@nil A);
    [apply app_nil_r|].
  destruct (isAbortError reason); [done|].
  unfold ObjectClient.reported. destruct (onError options_); [|done].
  simpl. by rewrite Hf.
Qed.

(** ** Steps of the system *)

Lemma step_settle sys call at_ r :
  calls sys !! call = Some at_ →
  step sys (Settle call r) =
  {| client := (resume at_ r (client sys)).2;
     calls := park call (resume at_ r (client sys)).1 (calls sys);
     next_call := next_call sys |}.
Proof.
  intros E. unfold ObjectClient.step. rewrite E.
  by destruct (resume at_ r (client sys)).
Qed.

Lemma step_submit sys input :
  step sys (CallSubmit input) =
  {| client := (submit input (client sys)).2;
     calls := park (next_call sys) (submit input (client sys)).1 (calls sys);
     next_call := S (next_call sys) |}.
Proof.
  unfold ObjectClient.step.
  by destruct (submit input (client sys)).
Qed.

Lemma object_armed s : object (armed s) = VUndefined.
Proof.
  unfold ObjectClient.object, ObjectClient.armed, map_get. fields.
  by rewrite lookup_insert_eq.
Qed.

Lemma run_snoc sys evs ev : run sys (evs ++ [ev]) = step (run sys evs) ev.
Proof. unfold ObjectClient.run. by rewrite foldl_snoc. Qed.

Lemma run_cons sys ev evs : run sys (ev :: evs) = run (step sys ev) evs.
Proof. reflexivity. Qed.

(** ** Construction *)

Lemma step_boot ev : submitted [ev] = [] → step boot ev = boot.
Proof. by destruct ev. Qed.

Lemma run_boot evs : submitted evs = [] → run boot evs = boot.
Proof.
  induction evs as [|ev evs IH]; [done|].
  intros Hnone. rewrite run_cons.
  change (ev :: evs) with ([ev] ++ evs) in Hnone.
  unfold submitted in Hnone. rewrite omap_app in Hnone.
  apply app_eq_nil in Hnone as [Hev Hevs].
  rewrite step_boot by done. by apply IH.
Qed.

(** C10. For every options value, after construction and as long as
    [submit] has not been called (whatever else happened: [stop], or
    nothing at all), the [object] getter returns [options.initialValue]
    ([undefined] when the option is left out), [error] is [undefined]
    and [loading] is [false]. *)
Theorem constructor_getters evs :
  submitted evs = [] →
  object (client (run boot evs)) = initialValue options_ ∧
  error (client (run boot evs)) = None ∧
  loading (client (run boot evs)) = false.
Proof.
  intros Hnone. rewrite run_boot by done.
  repeat split.
  unfold ObjectClient.object, map_get. simpl.
  by rewrite lookup_insert_eq.
Qed.

(** ** Starting a call *)

(** C6. Whatever the client is doing, and so also while an earlier call
    is pending, a [submit] leaves the stored object [undefined].  When
    the input serializes, the request is the last thing done before the
    call suspends, and it is issued in the state [armed]: object
    [undefined], [loading] set, [error] cleared.  When serializing throws,
    no request is issued and the call ends in the [catch] block, the
    object still reset. *)
Theorem submit_resets sys input :
  let sys' := step sys (CallSubmit input) in
  let at_request := armed (client sys) in
  object (client sys') = VUndefined ∧
  object at_request = VUndefined ∧
  loading at_request = true ∧
  error at_request = None ∧
  trace at_request = trace (client sys) ∧
  match JSON_stringify input with
  | Normal text =>
      client sys' =
        emit (EFetch actualFetch
                (request_for (next_controller (client sys)) text))
             at_request ∧
      loading (client sys') = true ∧
      error (client sys') = None ∧
      calls sys' = <[next_call sys := AwaitFetch]> (calls sys)
  | Throw reason =>
      client sys' = catch_ reason at_request ∧
      calls sys' = delete (next_call sys) (calls sys)
  end.
Proof.
  cbv zeta. rewrite step_submit, submit_unfold. simpl.
  pose proof (object_armed (client sys)) as Hobj.
  destruct (JSON_stringify input) as [text|reason]; simpl.
  - by repeat split.
  - repeat split; try done.
    + unfold ObjectClient.object in *. by rewrite objects_catch.
    + apply park_ended.
Qed.

(** ** Cancellation *)


(** ** The stream *)



(** ** Failures *)

Lemma failed_intro call reason before after :
  isAbortError reason = false →
  client after = catch_ reason (client before) →
  calls after = delete call (calls before) →
  failed options_ call (coalesce reason) before after.
Proof.
  intros Hreason Hclient Hcalls. unfold failed.
  rewrite Hclient, Hcalls. split_and!.
  - apply lookup_delete_eq.
  - unfold onFinish_calls. by rewrite omap_catch.
  - intros [callback Hcb]. unfold onError_calls.
    rewrite trace_catch, Hreason, omap_app. apply elem_of_app. right.
    unfold ObjectClient.reported. rewrite Hcb. apply list_elem_of_here.
  - intros Hreturns. split; by rewrite catch_failure, Hreturns.
  - intros Hnone. split; [|apply objects_catch].
    rewrite trace_catch, Hreason.
    unfold ObjectClient.reported. rewrite Hnone. apply app_nil_r.
Qed.

(** C4, as the code has it.  Take a call waiting for its response, and
    collaborators for which a plain [Error] is not an abort error.
    - The response is not ok: once its text is read, the call fails with
      [new Error(text)] (with a fixed message when there is no text); if
      reading the text rejects with something that is not an abort, the
      call fails with that, made an [Error].
    - The response is ok and its body is [null]: the call fails at once
      with [new Error("The response body is empty.")].
    A call that fails is over, without a call of [onFinish]; the error
    has been handed to [onError] if there is one; and if [onError] came
    back, or there is none, the error is stored in the [error] field and
    [loading] is cleared.  Without an [onError] nothing leaves the client
    and the stored objects are kept. *)
Theorem failed_response_is_reported sys call response :
  calls sys !! call = Some AwaitFetch →
  (∀ msg, isAbortError (ThrownError (new_Error msg)) = false) →
  let answered := step sys (Settle call (FetchResolved response)) in
  (ok response = false →
   (∀ text,
      failed options_ call
        (new_Error (default "Failed to fetch the response." text))
        sys (step answered (Settle call (TextResolved text)))) ∧
   (∀ reason, isAbortError reason = false →
      failed options_ call (coalesce reason)
        sys (step answered (Settle call (Rejected reason))))) ∧
  (ok response = true → response_body response = None →
   failed options_ call (new_Error "The response body is empty.")
     sys answered).
Proof.
  intros Hcall Hplain. cbv zeta.
  rewrite (step_settle _ call _ _ Hcall). split.
  - intros Hok. rewrite resume_not_ok by done.
    split; [intros text | intros reason Hreason].
    + rewrite (step_settle _ call AwaitText)
        by (simpl; apply lookup_insert_eq).
      rewrite resume_text.
      apply (failed_intro call (ThrownError (new_Error _))); [done|done|].
      cbn [fst snd calls park]. by rewrite park_ended, delete_insert_eq.
    + rewrite (step_settle _ call AwaitText)
        by (simpl; apply lookup_insert_eq).
      rewrite resume_rejected.
      apply failed_intro; [done|done|].
      cbn [fst snd calls park]. by rewrite park_ended, delete_insert_eq.
  - intros Hok Hbody. rewrite resume_no_body by done.
    apply (failed_intro call (ThrownError (new_Error _))); [done|done|].
    cbn [fst snd calls]. by rewrite park_ended.
Qed.

(** ** What a run lets out *)

Lemma explained_more inputs more e :
  explained options_ inputs e → explained options_ (inputs ++ more) e.
Proof.
  destruct e; simpl; try done.
  intros (input & controller & text & Hin & Hrest).
  exists input, controller, text. split; [|done].
  apply elem_of_app. by left.
Qed.

Lemma reported_explained inputs e :
  Forall (explained options_ inputs) (reported e).
Proof.
  unfold ObjectClient.reported. destruct (onError options_); by repeat constructor.
Qed.

Lemma finished_explained inputs latestObject :
  Forall (explained options_ inputs) (finished latestObject).
Proof.
  unfold ObjectClient.finished. destruct (onFinish options_); repeat constructor.
  simpl. by exists latestObject.
Qed.

Lemma catch_explained inputs reason s :
  Forall (explained options_ inputs) (trace s) →
  Forall (explained options_ inputs) (trace (catch_ reason s)).
Proof.
  intros Hs. rewrite trace_catch. apply Forall_app. split; [done|].
  destruct (isAbortError reason); [constructor | apply reported_explained].
Qed.

Lemma resume_explained inputs at_ r s :
  Forall (explained options_ inputs) (trace s) →
  Forall (explained options_ inputs) (trace (resume at_ r s).2).
Proof.
  intros Hs.
  destruct r as [response|text|chunk| |reason].
  - destruct at_; try done.
    destruct (ok response) eqn:Hok.
    + destruct (response_body response) as [stream|] eqn:Hbody.
      * by rewrite (resume_body _ stream).
      * rewrite resume_no_body by done. by apply catch_explained.
    + by rewrite resume_not_ok.
  - destruct at_; try done.
    rewrite resume_text. by apply catch_explained.
  - destruct at_ as [| |accumulatedText latestObject]; try done.
    rewrite resume_chunk. cbv zeta.
    by destruct (isDeepEqualData latestObject _).
  - destruct at_ as [| |accumulatedText latestObject]; try done.
    assert (Forall (explained options_ inputs)
              (trace (closed options_ latestObject s))) as Hclosed.
    { simpl. apply Forall_app. split; [done | apply finished_explained]. }
    destruct (closed_cases accumulatedText latestObject s)
      as [->|[thrown_ ->]]; [done | by apply catch_explained].
  - rewrite resume_rejected. by apply catch_explained.
Qed.

Lemma step_explained inputs sys ev :
  Forall (explained options_ inputs) (trace (client sys)) →
  Forall (explained options_ (inputs ++ submitted [ev]))
         (trace (client (step sys ev))).
Proof.
  intros Hs.
  assert (Forall (explained options_ (inputs ++ submitted [ev]))
            (trace (client sys))) as Hs'.
  { eapply Forall_impl; [done|]. intros e. apply explained_more. }
  destruct ev as [input| |call r].
  - rewrite step_submit, submit_unfold.
    destruct (JSON_stringify input) as [text|reason] eqn:Htext; simpl.
    + apply Forall_app. split; [done|].
      repeat constructor. simpl.
      exists input, (next_controller (client sys)), text.
      repeat split; [|done].
      apply elem_of_app. right. simpl. apply list_elem_of_here.
    + by apply catch_explained.
  - simpl. unfold ObjectClient.stop.
    destruct (abortController_ (client sys)); fields; [|done].
    apply Forall_app. split; [done | by repeat constructor].
  - destruct (calls sys !! call) as [at_|] eqn:Hcall.
    + rewrite (step_settle _ call at_) by done. simpl.
      by apply resume_explained.
    + unfold ObjectClient.step. by rewrite Hcall.
Qed.

Lemma run_explained evs :
  Forall (explained options_ (submitted evs)) (trace (client (run boot evs))).
Proof.
  induction evs as [|ev evs IH] using rev_ind.
  - constructor.
  - rewrite run_snoc. unfold submitted. rewrite omap_app.
    by apply step_explained.
Qed.

(** C3, as the code has it.  In every run of a client, each argument
    [onFinish] is called with comes from validating some value: either
    its [error] is undefined and its [object] is the value the schema
    accepted, or its [object] is undefined and its [error] is the
    validation error.  So the two are never both defined; both are
    undefined when the schema accepts [undefined]. *)
Theorem onFinish_never_both evs event :
  EOnFinish event ∈ trace (client (run boot evs)) →
  (∃ latestObject,
     match schema options_ latestObject with
     | Success value =>
         event_object event = value ∧ event_error event = None
     | Failure err =>
         event_object event = VUndefined ∧ event_error event = Some err
     end) ∧
  (event_object event = VUndefined ∨ event_error event = None).
Proof.
  intros Hin.
  pose proof (run_explained evs) as Hall.
  rewrite Forall_forall in Hall. specialize (Hall _ Hin).
  destruct Hall as [latestObject ->].
  split.
  - exists latestObject. by destruct (schema options_ latestObject).
  - destruct (schema options_ latestObject); simpl; auto.
Qed.

(** C8, as the code has it.  In every run of a client, each request is a
    POST to the configured endpoint (["/api/completion"] when none is
    configured) whose body is the serialization of the input of one of
    the [submit] calls.  When the additional headers are given as a plain
    record, each of them is among the request's headers, and
    [Content-Type] is [application/json] unless the record has an entry
    of that name. *)
Theorem requests_are_json_posts evs via req :
  EFetch via req ∈ trace (client (run boot evs)) →
  method req = "POST" ∧
  url req = api_ ∧
  (∃ input, input ∈ submitted evs ∧ JSON_stringify input = Normal (body req)) ∧
  (∀ entries key value,
     headers options_ = Some (HeadersRecord entries) →
     entries !! key = Some value →
     request_headers req !! key = Some value) ∧
  (own_enumerable (headers options_) !! "Content-Type" = None →
   request_headers req !! "Content-Type" = Some "application/json").
Proof.
  intros Hin.
  pose proof (run_explained evs) as Hall.
  rewrite Forall_forall in Hall. specialize (Hall _ Hin).
  destruct Hall as (input & controller & text & Hinput & Htext & _ & ->).
  simpl. repeat split.
  - by exists input.
  - intros entries key value Hheaders Hkey.
    unfold spread. rewrite Hheaders. simpl.
    apply lookup_union_Some_l. done.
  - intros Hnone. unfold spread.
    rewrite lookup_union_r by done.
    by rewrite lookup_singleton_eq.
Qed.

(** C2, as the code has it.  When the stream of a call closes, the value
    the call published last is handed to the validation, and the outcome
    to [onFinish], if an [onFinish] callback is there; without one,
    nothing is validated.  Either way the call ends. *)
Theorem close_validates_for_onFinish sys call accumulatedText latestObject :
  calls sys !! call = Some (AwaitPipeTo accumulatedText latestObject) →
  let sys' := step sys (Settle call PipeClosed) in
  validations (trace (client sys')) =
    validations (trace (client sys)) ++
    (if onFinish options_ is Some _ then [latestObject] else []) ∧
  onFinish_calls (trace (client sys')) =
    onFinish_calls (trace (client sys)) ++
    (if onFinish options_ is Some _
     then [finish_event_of (schema options_ latestObject)] else []) ∧
  calls sys' = delete call (calls sys).
Proof.
  intros Hcall. cbv zeta.
  rewrite (step_settle _ call _ _ Hcall).
  assert (validations (trace (closed options_ latestObject (client sys))) =
          validations (trace (client sys)) ++
          (if onFinish options_ is Some _ then [latestObject] else []))
    as Hvalid.
  { unfold validations, closed, ObjectClient.finished. simpl.
    rewrite omap_app. by destruct (onFinish options_). }
  assert (onFinish_calls (trace (closed options_ latestObject (client sys))) =
          onFinish_calls (trace (client sys)) ++
          (if onFinish options_ is Some _
           then [finish_event_of (schema options_ latestObject)] else []))
    as Hcalls.
  { unfold onFinish_calls, closed, ObjectClient.finished. simpl.
    rewrite omap_app. by destruct (onFinish options_). }
  cbn [client calls].
  destruct (closed_cases accumulatedText latestObject (client sys))
    as [->|[thrown_ ->]].
  - repeat split; [done|done|].
    rewrite resume_closed.
    destruct (onFinish_outcome options_ latestObject); cbn [fst park];
      [done | apply park_ended].
  - unfold validations, onFinish_calls in *.
    rewrite !omap_catch by done. repeat split; [done|done|].
    rewrite resume_closed.
    destruct (onFinish_outcome options_ latestObject); cbn [fst park];
      [done | apply park_ended].
Qed.

(** ** A call on its own *)

(** While no other [submit] is started, the value a call published last
    is the one the [object] getter shows. *)
Lemma chunks_keep_latest chunks : ∀ sys call locals,
  calls sys !! call = Some (AwaitPipeTo locals.1 locals.2) →
  object (client sys) = locals.2 →
  let sys' := run sys ((λ chunk, Settle call (PipeChunk chunk)) <$> chunks) in
  let locals' := foldl absorb locals chunks in
  calls sys' !! call = Some (AwaitPipeTo locals'.1 locals'.2) ∧
  object (client sys') = locals'.2 ∧
  error (client sys') = error (client sys) ∧
  loading (client sys') = loading (client sys) ∧
  trace (client sys') = trace (client sys).
Proof.
  induction chunks as [|chunk chunks IH];
    intros sys call [text latest] Hcall Hobj; [done|].
  cbv zeta. rewrite fmap_cons, run_cons. simpl in Hcall, Hobj.
  change (foldl absorb (text, latest) (chunk :: chunks))
    with (foldl absorb (absorb (text, latest) chunk) chunks).
  rewrite (step_settle _ call _ _ Hcall), resume_chunk. cbv zeta.
  destruct (isDeepEqualData latest _) eqn:E; simpl.
  - assert (absorb (text, latest) chunk = (String.append text chunk, latest))
      as -> by (unfold absorb; simpl; by rewrite E).
    edestruct (IH {| client := client sys;
                     calls := <[call := AwaitPipeTo (String.append text chunk)
                                          latest]> (calls sys);
                     next_call := next_call sys |} call
                  (String.append text chunk, latest))
      as (H1 & H2 & H3 & H4 & H5); simpl;
      [apply lookup_insert_eq | done |].
    by repeat split.
  - assert (absorb (text, latest) chunk =
            (String.append text chunk,
             parsePartialJson (String.append text chunk)))
      as -> by (unfold absorb; simpl; by rewrite E).
    set (current := parsePartialJson (String.append text chunk)) in *.
    edestruct (IH {| client := objects_set id_ current (client sys);
                     calls := <[call := AwaitPipeTo (String.append text chunk)
                                          current]> (calls sys);
                     next_call := next_call sys |} call
                  (String.append text chunk, current))
      as (H1 & H2 & H3 & H4 & H5); simpl;
      [apply lookup_insert_eq | |].
    + unfold ObjectClient.object, map_get. fields.
      by rewrite lookup_insert_eq.
    + by repeat split.
Qed.

Lemma latest_is_published sys input text response stream chunks :
  JSON_stringify input = Normal text →
  ok response = true →
  response_body response = Some stream →
  let call := next_call sys in
  let sys' := run sys (streaming call input response chunks) in
  let locals := foldl absorb (EmptyString, VUndefined) chunks in
  calls sys' !! call = Some (AwaitPipeTo locals.1 locals.2) ∧
  object (client sys') = locals.2 ∧
  error (client sys') = None ∧
  loading (client sys') = true ∧
  trace (client sys') =
    trace (client sys) ++
    [EFetch actualFetch (request_for (next_controller (client sys)) text)].
Proof.
  intros Htext Hok Hbody. cbv zeta.
  unfold streaming. rewrite !run_cons.
  rewrite step_submit, submit_unfold, Htext.
  rewrite (step_settle _ _ AwaitFetch) by (simpl; apply lookup_insert_eq).
  rewrite (resume_body _ stream) by done.
  cbn [fst snd client calls ObjectClient.next_call park].
  rewrite insert_insert_eq.
  match goal with
  | |- context [ObjectClient.run _ ?sys1 _] =>
      edestruct (chunks_keep_latest chunks sys1 (next_call sys)
                   (EmptyString, VUndefined))
        as (H1 & H2 & H3 & H4 & H5)
  end.
  - simpl. apply lookup_insert_eq.
  - apply (object_armed (client sys)).
  - by repeat split.
Qed.

(** After at least one chunk, the value published last is the parse of
    the whole text so far, or deep-equal to it. *)
Lemma latest_is_last_parse chunks chunk locals :
  let locals' := foldl absorb locals (chunks ++ [chunk]) in
  locals'.2 = parsePartialJson locals'.1 ∨
  isDeepEqualData locals'.2 (parsePartialJson locals'.1) = true.
Proof.
  cbv zeta. rewrite foldl_snoc.
  destruct (foldl absorb locals chunks) as [text latest].
  unfold absorb. simpl.
  destruct (isDeepEqualData latest _) eqn:E; auto.
Qed.

End Facts.

End ObjectClientFacts.

(** * Properties of the middleware *)

Module DefaultSettingsFacts.
Import DefaultSettings.

Section Facts.

Context (mergeObjects : js_value → js_value → js_value).

(** C9. What [transformParams] returns, key by key: [providerMetadata]
    is [mergeObjects(settings.providerMetadata, params.providerMetadata)];
    any other key that [params] has keeps the value [params] gives it;
    a key only [settings] has keeps the default; no other key is there. *)
Theorem transformParams_prefers_params settings params key :
  transformParams (defaultSettingsMiddleware mergeObjects settings) params
    !! key =
  if decide (key = "providerMetadata") then
    Some (mergeObjects (map_get settings "providerMetadata")
                       (map_get params "providerMetadata"))
  else
    match params !! key with
    | Some value => Some value
    | None => settings !! key
    end.
Proof.
  simpl. destruct (decide (key = "providerMetadata")) as [->|Hne].
  - by rewrite lookup_insert_eq.
  - rewrite lookup_insert_ne by done. unfold spread.
    rewrite lookup_union. by destruct (params !! key), (settings !! key).
Qed.

End Facts.

(** The defaults set a temperature and two provider entries, the call
    overrides one of the entries. *)
Example transformParams_sample :
  let settings : gmap string js_value :=
    {[ "temperature" := VNum 1;
       "providerMetadata" := VObj [("a", VNum 1); ("b", VNum 2)] ]} in
  let params : gmap string js_value :=
    {[ "maxTokens" := VNum 100;
       "providerMetadata" := VObj [("b", VNum 3)] ]} in
  transformParams (defaultSettingsMiddleware mergeObjects_spec settings) params
  = {[ "temperature" := VNum 1;
       "maxTokens" := VNum 100;
       "providerMetadata" := VObj [("a", VNum 1); ("b", VNum 3)] ]}.
Proof. vm_compute. reflexivity. Qed.

End DefaultSettingsFacts.

(** * The properties at work on the sample client *)

Module Runs.
Import ObjectClient Observations ObjectClientFacts Sample Scenarios.

(** A fresh client on which [stop] is called twice. *)
Lemma constructor_getters_witness :
  submitted [CallStop; CallStop] = [] ∧
  object options (client (run options (boot options) [CallStop; CallStop]))
    = initialValue options ∧
  error (client (run options (boot options) [CallStop; CallStop])) = None ∧
  loading (client (run options (boot options) [CallStop; CallStop])) = false.
Proof.
  split; [reflexivity|].
  apply (constructor_getters options [CallStop; CallStop]). reflexivity.
Defined.




(** A 404 whose text is ["gone"], and a response without a body. *)
Lemma failed_response_is_reported_witness :
  calls waiting !! 0 = Some AwaitFetch ∧
  (∀ msg, isAbortError (ThrownError (new_Error msg)) = false) ∧
  failed options 0 (new_Error "gone") waiting
    (step options (step options waiting (Settle 0 (FetchResolved not_found)))
          (Settle 0 (TextResolved (Some "gone")))) ∧
  failed options 0 (new_Error "The response body is empty.") waiting
    (step options waiting (Settle 0 (FetchResolved no_body))).
Proof.
  assert (calls waiting !! 0 = Some AwaitFetch) as Hcall
    by (vm_compute; reflexivity).
  assert (∀ msg, isAbortError (ThrownError (new_Error msg)) = false) as Hplain
    by (intros msg; reflexivity).
  split; [exact Hcall|]. split; [exact Hplain|]. split.
  - exact (proj1 (proj1 (failed_response_is_reported options waiting 0
                           not_found Hcall Hplain) eq_refl) (Some "gone")).
  - exact (proj2 (failed_response_is_reported options waiting 0 no_body
                    Hcall Hplain) eq_refl eq_refl).
Defined.

(** A whole call on the chunks ["4"] and ["2"]: [onFinish] gets [42]. *)
Lemma onFinish_never_both_witness :
  EOnFinish {| event_object := VNum 42; event_error := None |}
    ∈ trace (client (run options (boot options) (whole_call ["4"; "2"]))) ∧
  (∃ latestObject,
     match schema options latestObject with
     | Success value => VNum 42 = value ∧ None = (None : option js_error)
     | Failure err => VNum 42 = VUndefined ∧ None = Some err
     end) ∧
  (VNum 42 = VUndefined ∨ None = (None : option js_error)).
Proof.
  assert (EOnFinish {| event_object := VNum 42; event_error := None |}
            ∈ trace (client (run options (boot options)
                               (whole_call ["4"; "2"])))) as Hin.
  { apply (list_elem_of_lookup_2 _ 2). vm_compute. reflexivity. }
  split; [exact Hin|].
  exact (onFinish_never_both options (whole_call ["4"; "2"]) _ Hin).
Defined.

(** The request of that call. *)
Lemma requests_are_json_posts_witness :
  EFetch GlobalFetch (request_for options 0 (Some "7"))
    ∈ trace (client (run options (boot options) (whole_call ["4"; "2"]))) ∧
  request_headers (request_for options 0 (Some "7")) !! "Authorization" =
    Some "Bearer t" ∧
  request_headers (request_for options 0 (Some "7")) !! "Content-Type" =
    Some "application/json".
Proof.
  assert (EFetch GlobalFetch (request_for options 0 (Some "7"))
            ∈ trace (client (run options (boot options)
                               (whole_call ["4"; "2"])))) as Hin.
  { apply (list_elem_of_lookup_2 _ 0). vm_compute. reflexivity. }
  destruct (requests_are_json_posts options (whole_call ["4"; "2"]) _ _ Hin)
    as (_ & _ & _ & Hheaders & Htype).
  split; [exact Hin|]. split.
  - apply (Hheaders {[ "Authorization" := "Bearer t" ]}); reflexivity.
  - apply Htype. vm_compute. reflexivity.
Defined.

(** Closing the stream after ["4"]: [4] is validated. *)
Lemma close_validates_for_onFinish_witness :
  calls mid_stream !! 0 = Some (AwaitPipeTo "4" (VNum 4)) ∧
  validations (trace (client (step options mid_stream (Settle 0 PipeClosed))))
    = validations (trace (client mid_stream)) ++ [VNum 4].
Proof.
  assert (calls mid_stream !! 0 = Some (AwaitPipeTo "4" (VNum 4))) as Hcall
    by (vm_compute; reflexivity).
  split; [exact Hcall|].
  exact (proj1 (close_validates_for_onFinish options mid_stream 0 "4" (VNum 4)
                  Hcall)).
Defined.

(** ** Where the code departs from the text of a claim *)


(** C2 as stated fails, twice.  Without an [onFinish] callback a stream
    that completes normally is not validated at all.  And with one, what
    is validated is the value published last, not the last value that
    parsed: after the chunks ["4"] and ["x"] the text no longer parses,
    [undefined] has been published over [4], and [undefined] is what the
    schema is asked about. *)
Lemma validation_is_guarded_and_takes_latest :
  (calls (run quiet_options (boot quiet_options) (whole_call ["4"; "2"])) = ∅ ∧
   object quiet_options
     (client (run quiet_options (boot quiet_options) (whole_call ["4"; "2"])))
     = VNum 42 ∧
   error (client (run quiet_options (boot quiet_options)
                    (whole_call ["4"; "2"]))) = None ∧
   validations
     (trace (client (run quiet_options (boot quiet_options)
                       (whole_call ["4"; "2"])))) = []) ∧
  (parsePartialJson "4" = VNum 4 ∧
   parsePartialJson "4x" = VUndefined ∧
   calls (run options (boot options) (whole_call ["4"; "x"])) = ∅ ∧
   validations
     (trace (client (run options (boot options) (whole_call ["4"; "x"]))))
     = [VUndefined]).
Proof. repeat split; vm_compute; reflexivity. Qed.

(** C4 as stated fails, twice.  An [onError] that throws keeps the
    failure of a 404 out of the [error] field and [loading] set.  And
    when the read of a 404's text is aborted, the call ends without a
    word: no [onError], no [error]. *)
Lemma bad_response_not_stored :
  (onError_calls
     (trace (client (run complaining_options (boot complaining_options)
                       failing_call))) = [new_Error "gone"] ∧
   error (client (run complaining_options (boot complaining_options)
                    failing_call)) = None ∧
   loading (client (run complaining_options (boot complaining_options)
                      failing_call)) = true ∧
   calls (run complaining_options (boot complaining_options) failing_call)
     = ∅) ∧
  (onError_calls
     (trace (client (run options (boot options) aborted_read))) = [] ∧
   error (client (run options (boot options) aborted_read)) = None ∧
   loading (client (run options (boot options) aborted_read)) = true ∧
   calls (run options (boot options) aborted_read) = ∅).
Proof. repeat split; vm_compute; reflexivity. Qed.


(** C3 as stated fails: a schema without a validator accepts the
    [undefined] of a stream that closed before anything could be parsed,
    and [onFinish] is called with neither field defined. *)
Lemma onFinish_with_neither_field :
  last (trace (client (run lenient_options (boot lenient_options)
                         (whole_call [])))) =
  Some (EOnFinish {| event_object := VUndefined; event_error := None |}).
Proof. vm_compute. reflexivity. Qed.

(** C8 as stated fails: a configured [Content-Type] replaces
    [application/json]. *)
Lemma configured_content_type_wins :
  ∃ req,
    trace (client (run plain_text_options (boot plain_text_options)
                     [CallSubmit (VNum 7)])) = [EFetch GlobalFetch req] ∧
    method req = "POST" ∧
    request_headers req !! "Content-Type" = Some "text/plain".
Proof. eexists. repeat split; vm_compute; reflexivity. Qed.

(** Headers configured as a [Headers] instance do not reach the request:
    the spread finds no own property to copy. *)
Example headers_instance_is_not_spread :
  trace (client (run headers_instance_options (boot headers_instance_options)
                   [CallSubmit (VNum 7)])) =
  [EFetch GlobalFetch
     {| url := "/api/object";
        method := "POST";
        request_headers := {[ "Content-Type" := "application/json" ]};
        signal := 0;
        body := Some "7" |}].
Proof. vm_compute. reflexivity. Qed.

(** A second [submit] while the first is mid-stream: the partial object
    is gone at once, and both calls are pending. *)
Example second_submit_discards_partial :
  object options (client mid_stream) = VNum 4 ∧
  object options (client (step options mid_stream (CallSubmit (VNum 8))))
    = VUndefined ∧
  calls (step options mid_stream (CallSubmit (VNum 8))) =
    {[ 0 := AwaitPipeTo "4" (VNum 4); 1 := AwaitFetch ]}.
Proof. repeat split; vm_compute; reflexivity. Qed.

End Runs.

(** * Further properties of the client *)

Module ObjectClientRuns.
Import ObjectClient ObjectClientFacts Observations.

Section Facts.

Context `{Collaborators} (options_ : Options).

#[local] Abbreviation object := (object options_).
#[local] Abbreviation submit := (submit options_).
#[local] Abbreviation resume := (resume options_).
#[local] Abbreviation step := (step options_).
#[local] Abbreviation run := (run options_).
#[local] Abbreviation boot := (boot options_).
#[local] Abbreviation id_ := (id_ options_).
#[local] Abbreviation catch_ := (catch_ options_).
#[local] Abbreviation armed := (armed options_).
#[local] Abbreviation request_for := (request_for options_).
#[local] Abbreviation actualFetch := (actualFetch options_).
#[local] Abbreviation reported := (reported options_).
#[local] Abbreviation finished := (finished options_).
#[local] Abbreviation closed := (closed options_).
#[local] Abbreviation failed := (failed options_).

(** ** The shapes a step can give the fields *)

Lemma catch_cases reason s :
  (isAbortError reason = true ∧ catch_ reason s = s) ∨
  (isAbortError reason = false ∧
   catch_ reason s =
   set_error (Some (coalesce reason))
     (set_loading false (notified options_ (coalesce reason) s))) ∨
  (isAbortError reason = false ∧
   catch_ reason s = notified options_ (coalesce reason) s).
Proof.
  destruct (isAbortError reason) eqn:E.
  - left. split; [done|]. by apply catch_abort.
  - right. rewrite catch_failure by done.
    destruct (onError_returns options_ _); [left | right]; by split.
Qed.

Lemma resume_cases at_ r s :
  (resume at_ r s).2 = s ∨
  (∃ reason, (resume at_ r s).2 = catch_ reason s) ∨
  (∃ value, (resume at_ r s).2 = objects_set id_ value s) ∨
  (∃ latestObject, (resume at_ r s).2 = closed latestObject s) ∨
  (∃ latestObject thrown_,
     (resume at_ r s).2 = catch_ thrown_ (closed latestObject s)).
Proof.
  destruct r as [response|text|chunk| |reason].
  - destruct at_; try by left.
    destruct (ok response) eqn:Hok.
    + destruct (response_body response) as [stream|] eqn:Hbody.
      * left. by rewrite (resume_body _ _ stream).
      * right. left. eexists. by rewrite resume_no_body.
    + left. by rewrite resume_not_ok.
  - destruct at_; try by left.
    right. left. eexists. by rewrite resume_text.
  - destruct at_ as [| |accumulatedText latestObject]; try by left.
    rewrite resume_chunk. cbv zeta.
    destruct (isDeepEqualData latestObject _); [by left|].
    right. right. left. by eexists.
  - destruct at_ as [| |accumulatedText latestObject]; try by left.
    right. right. right.
    destruct (closed_cases options_ accumulatedText latestObject s)
      as [->|[thrown_ ->]]; [left | right]; by eauto.
  - right. left. exists reason. by rewrite resume_rejected.
Qed.

Lemma run_app sys evs evs' : run sys (evs ++ evs') = run (run sys evs) evs'.
Proof. unfold ObjectClient.run. by rewrite foldl_app. Qed.

Lemma run_invariant (P : System → Prop) :
  P boot → (∀ sys ev, P sys → P (step sys ev)) → ∀ evs, P (run boot evs).
Proof.
  intros Hboot Hstep evs.
  induction evs as [|ev evs IH] using rev_ind; [done|].
  rewrite run_snoc. by apply Hstep.
Qed.

(** ** Failures other than a bad response *)

(** X1. Whatever a call is waiting for (the fetch, the text of a bad
    response, the stream), when the awaited promise rejects with
    something that is not an abort, the call ends as a failure: an
    [Error] is passed on as it is, any other value becomes
    [new Error(String(value))]; [onFinish] is not called; the error has
    been handed to [onError] if there is one; and if [onError] came back,
    or there is none, the error is stored in the [error] field and
    [loading] is cleared.  Without an [onError] nothing leaves the client
    and the stored objects are kept. *)
Theorem rejection_is_reported sys call at_ reason :
  calls sys !! call = Some at_ →
  isAbortError reason = false →
  failed call (coalesce reason) sys (step sys (Settle call (Rejected reason))).
Proof.
  intros Hcall Hreason.
  rewrite (step_settle _ _ call at_) by done.
  rewrite resume_rejected.
  apply failed_intro; [done|done|]. cbn [fst calls]. apply park_ended.
Qed.


(** X3. When [JSON.stringify] throws on the input, the call is over
    before [submit] returns, as a failure with what was thrown:
    [onFinish] is not called; the error has been handed to [onError] if
    there is one; and if [onError] came back, or there is none, the error
    is stored and [loading] cleared.  Without an [onError] nothing leaves
    the client, no request in particular, and the object [submit] had
    reset stays undefined. *)
Theorem unserializable_input_is_reported sys input reason :
  JSON_stringify input = Throw reason →
  isAbortError reason = false →
  let sys' := step sys (CallSubmit input) in
  calls sys' = delete (next_call sys) (calls sys) ∧
  next_call sys' = S (next_call sys) ∧
  onFinish_calls (trace (client sys')) = onFinish_calls (trace (client sys)) ∧
  (is_Some (onError options_) →
   coalesce reason ∈ onError_calls (trace (client sys'))) ∧
  (onError_returns options_ (coalesce reason) = true →
   error (client sys') = Some (coalesce reason) ∧
   loading (client sys') = false) ∧
  (onError options_ = None →
   trace (client sys') = trace (client sys) ∧
   object (client sys') = VUndefined).
Proof.
  intros Hthrow Hreason. cbv zeta.
  rewrite step_submit, submit_unfold, Hthrow.
  cbn [fst snd client calls ObjectClient.next_call]. rewrite park_ended.
  pose proof (object_armed options_ (client sys)) as Hobj.
  unfold ObjectClient.object in *.
  rewrite objects_catch, trace_catch, Hreason.
  split_and!; try done.
  - unfold onFinish_calls. rewrite omap_app.
    replace (omap _ (reported (coalesce reason))) with (@nil FinishEvent).
    + by rewrite app_nil_r.
    + unfold ObjectClient.reported. by destruct (onError options_).
  - intros [callback Hcb]. unfold onError_calls.
    rewrite omap_app. apply elem_of_app. right.
    unfold ObjectClient.reported. rewrite Hcb. apply list_elem_of_here.
  - intros Hreturns. split; by rewrite catch_failure, Hreturns.
  - intros Hnone. split; [|done].
    unfold ObjectClient.reported. rewrite Hnone. apply app_nil_r.
Qed.

(** ** [stop] and the calls in flight *)

(** [stop] right after [stop] does nothing: the controller is aborted
    once and forgotten. *)
Lemma stop_twice sys :
  step (step sys CallStop) CallStop = step sys CallStop.
Proof. reflexivity. Qed.

(** X4. The close of one call's stream clears [loading] and forgets the
    current controller whether or not other calls are still pending;
    these stay pending, and a [stop] that follows aborts nothing and
    changes nothing. *)
Theorem close_disarms_stop sys call accumulatedText latestObject :
  calls sys !! call = Some (AwaitPipeTo accumulatedText latestObject) →
  let closed_ := step sys (Settle call PipeClosed) in
  loading (client closed_) = false ∧
  abortController_ (client closed_) = None ∧
  (∀ other, other ≠ call → calls closed_ !! other = calls sys !! other) ∧
  client (step closed_ CallStop) = client closed_.
Proof.
  intros Hcall. cbv zeta.
  rewrite (step_settle _ _ _ _ _ Hcall).
  assert (park call
            (resume (AwaitPipeTo accumulatedText latestObject) PipeClosed
               (client sys)).1 (calls sys) = delete call (calls sys))
    as Hpark.
  { rewrite resume_closed.
    destruct (onFinish_outcome options_ latestObject); cbn [fst park];
      [done | apply park_ended]. }
  cbn [client calls]. rewrite Hpark.
  assert (∀ s, loading_ s = false → abortController_ s = None → stop s = s)
    as Hidle.
  { intros [] ??. simpl in *. by subst. }
  assert (loading_ (resume (AwaitPipeTo accumulatedText latestObject)
                      PipeClosed (client sys)).2 = false ∧
          abortController_ (resume (AwaitPipeTo accumulatedText latestObject)
                              PipeClosed (client sys)).2 = None)
    as [Hload Hctrl].
  { destruct (closed_cases options_ accumulatedText latestObject (client sys))
      as [->|[thrown_ ->]]; [done|].
    by destruct (catch_cases thrown_ (closed latestObject (client sys)))
      as [[_ ->]|[[_ ->]|[_ ->]]]. }
  repeat split; try done.
  - intros other Hother. by rewrite lookup_delete_ne.
  - change (client (step ?sys0 CallStop)) with (stop (client sys0)).
    cbn [client]. by apply Hidle.
Qed.

(** X5. [submit] neither aborts nor drops the calls already in flight:
    they stay pending where they were, and no [abort()] is made. *)
Theorem submit_keeps_earlier_calls sys input other :
  other ≠ next_call sys →
  let sys' := step sys (CallSubmit input) in
  calls sys' !! other = calls sys !! other ∧
  aborted (trace (client sys')) = aborted (trace (client sys)).
Proof.
  intros Hother. cbv zeta.
  rewrite step_submit, submit_unfold.
  destruct (JSON_stringify input) as [text|reason];
    cbn [fst snd client calls park].
  - split; [by rewrite lookup_insert_ne|].
    fields. unfold aborted. rewrite omap_app. simpl. by rewrite app_nil_r.
  - rewrite park_ended. split; [by rewrite lookup_delete_ne|].
    unfold aborted. by rewrite omap_catch.
Qed.

(** X6. A chunk of an earlier call that arrives after a later [submit]
    is still handled: if its parse differs from what the earlier call
    published last, it is published over the reset object; if not, the
    object stays [undefined]. *)
Theorem stale_chunk_after_second_submit
    sys call accumulatedText latestObject input chunk :
  calls sys !! call = Some (AwaitPipeTo accumulatedText latestObject) →
  call ≠ next_call sys →
  let currentObject :=
    parsePartialJson (String.append accumulatedText chunk) in
  let sys' := run sys [CallSubmit input; Settle call (PipeChunk chunk)] in
  object (client sys') =
    if isDeepEqualData latestObject currentObject then VUndefined
    else currentObject.
Proof.
  intros Hcall Hother. cbv zeta. rewrite !run_cons.
  assert (calls (step sys (CallSubmit input)) !! call =
          Some (AwaitPipeTo accumulatedText latestObject)) as Hcall'.
  { rewrite step_submit.
    destruct (submit input (client sys)).1; simpl.
    - by rewrite lookup_insert_ne.
    - by rewrite lookup_delete_ne.
    - by rewrite lookup_delete_ne. }
  assert (object (client (step sys (CallSubmit input))) = VUndefined) as Hobj.
  { rewrite step_submit, submit_unfold.
    pose proof (object_armed options_ (client sys)) as Harmed.
    destruct (JSON_stringify input); simpl; [done|].
    unfold ObjectClient.object in *. by rewrite objects_catch. }
  rewrite (step_settle _ _ _ _ _ Hcall'), resume_chunk. cbv zeta.
  cbn [ObjectClient.run foldl].
  destruct (isDeepEqualData latestObject _); simpl; [done|].
  unfold ObjectClient.object, map_get. fields.
  by rewrite lookup_insert_eq.
Qed.

(** ** Invariants of the fields *)

(** A property of the fields holds all along every run as soon as it
    holds after construction and is kept by each of the ways the code
    writes them. *)
Lemma fields_invariant (P : State → Prop) :
  P (client boot) →
  (∀ s, P s → P (armed s)) →
  (∀ s text, P s →
     P (emit (EFetch actualFetch (request_for (next_controller s) text))
             (armed s))) →
  (∀ s reason, P s → P (catch_ reason s)) →
  (∀ s value, P s → P (objects_set id_ value s)) →
  (∀ s latestObject, P s → P (closed latestObject s)) →
  (∀ s, P s → P (stop s)) →
  ∀ evs, P (client (run boot evs)).
Proof.
  intros Hboot Harmed Hrequest Hcatch Hpublish Hclose Hstop.
  apply (run_invariant (λ sys, P (client sys))); [done|].
  intros sys [input| |call r] HP.
  - rewrite step_submit, submit_unfold.
    destruct (JSON_stringify input); simpl; auto.
  - simpl. auto.
  - destruct (calls sys !! call) as [at_|] eqn:Hcall.
    + rewrite (step_settle _ _ call at_) by done. simpl.
      destruct (resume_cases at_ r (client sys))
        as [->|[[reason ->]|[[value ->]|[[latestObject ->]|
        (latestObject & thrown_ & ->)]]]]; auto.
    + unfold ObjectClient.step. by rewrite Hcall.
Qed.

(** X7. The map of stored objects never holds anything but one entry,
    under the client's id. *)
Theorem objects_single_key evs :
  dom (objects_ (client (run boot evs))) = {[ id_ ]}.
Proof.
  apply (fields_invariant (λ s, dom (objects_ s) = {[ id_ ]})).
  - simpl. rewrite dom_insert_L, dom_empty_L. apply union_empty_r_L.
  - intros s Hs. unfold ObjectClient.armed. fields.
    rewrite dom_insert_L, Hs. apply union_idemp_L.
  - intros s text Hs. unfold ObjectClient.armed. fields.
    rewrite dom_insert_L, Hs. apply union_idemp_L.
  - intros s reason Hs. by rewrite objects_catch.
  - intros s value Hs. fields. rewrite dom_insert_L, Hs. apply union_idemp_L.
  - done.
  - intros s Hs. unfold ObjectClient.stop.
    by destruct (abortController_ s).
Qed.

Lemma onError_calls_reported e :
  onError_calls (reported e) = if onError options_ is Some _ then [e] else [].
Proof. unfold ObjectClient.reported. by destruct (onError options_). Qed.

Lemma onError_calls_finished latestObject :
  onError_calls (finished latestObject) = [].
Proof. unfold ObjectClient.finished. by destruct (onFinish options_). Qed.

Lemma errors_accounted_run evs :
  errors_accounted options_ (client (run boot evs)).
Proof.
  apply (fields_invariant (errors_accounted options_)).
  - split; [constructor | done].
  - intros s [Hcalls _]. split; [done | done].
  - intros s text [Hcalls _]. split; [|done].
    fields. unfold onError_calls. rewrite omap_app. simpl.
    by rewrite app_nil_r.
  - intros s reason [Hcalls Herr].
    destruct (catch_cases reason s) as [[_ ->]|[[Hreason ->]|[Hreason ->]]];
      [done| |].
    all: assert (surfaced (coalesce reason)) as Hsurf by (by exists reason).
    all: assert (onError_calls (trace s ++ reported (coalesce reason)) =
                 onError_calls (trace s) ++
                 (if onError options_ is Some _ then [coalesce reason] else []))
           as Heq
           by (unfold onError_calls at 1; rewrite omap_app;
               fold (onError_calls (reported (coalesce reason)));
               by rewrite onError_calls_reported).
    all: assert (Forall surfaced
                   (onError_calls (trace s ++ reported (coalesce reason))))
           as Hall
           by (rewrite Heq; apply Forall_app; split; [done|];
               destruct (onError options_); by repeat constructor).
    + split; [exact Hall|]. simpl.
      intros e [= <-]. split; [done|]. intros [callback Hcb].
      rewrite Heq, Hcb. apply elem_of_app. right. apply list_elem_of_here.
    + split; [exact Hall|]. simpl.
      intros e He. destruct (Herr e He) as [Hse Hin]. split; [done|].
      intros Hcb. rewrite Heq. apply elem_of_app. left. by apply Hin.
  - done.
  - intros s latestObject [Hcalls Herr]. unfold errors_accounted. simpl.
    unfold onError_calls. rewrite omap_app.
    fold (onError_calls (finished latestObject)).
    rewrite onError_calls_finished, app_nil_r. done.
  - intros s [Hcalls Herr]. unfold ObjectClient.stop, errors_accounted.
    destruct (abortController_ s); fields; [|done].
    unfold onError_calls. rewrite omap_app. simpl. by rewrite app_nil_r.
Qed.

(** X8. [onError] is never handed an abort: every error it is called
    with is an [Error] that was thrown, or [new Error(String(value))] for
    another thrown value, and what was thrown was not an abort error. *)
Theorem onError_never_gets_abort evs e :
  e ∈ onError_calls (trace (client (run boot evs))) →
  ∃ reason, isAbortError reason = false ∧ e = coalesce reason.
Proof.
  intros Hin. destruct (errors_accounted_run evs) as [Hcalls _].
  rewrite Forall_forall in Hcalls. by apply Hcalls.
Qed.

(** X9. Whenever the [error] field holds an error, that error is not an
    abort and, if an [onError] callback is there, it has been handed to
    the callback. *)
Theorem stored_error_was_reported evs e :
  error (client (run boot evs)) = Some e →
  (∃ reason, isAbortError reason = false ∧ e = coalesce reason) ∧
  (is_Some (onError options_) →
   e ∈ onError_calls (trace (client (run boot evs)))).
Proof.
  intros Herr. destruct (errors_accounted_run evs) as [_ Hstored].
  by apply Hstored.
Qed.

(** ** Requests and controllers *)

Lemma requests_reported e : requests (reported e) = [].
Proof. unfold ObjectClient.reported. by destruct (onError options_). Qed.

Lemma requests_finished latestObject : requests (finished latestObject) = [].
Proof. unfold ObjectClient.finished. by destruct (onFinish options_). Qed.

Lemma requests_app tr tr' : requests (tr ++ tr') = requests tr ++ requests tr'.
Proof. unfold requests. apply omap_app. Qed.

Lemma requests_catch reason s :
  requests (trace (catch_ reason s)) = requests (trace s).
Proof.
  rewrite trace_catch, requests_app.
  destruct (isAbortError reason); rewrite ?requests_reported; apply app_nil_r.
Qed.

Lemma requests_stop s : requests (trace (stop s)) = requests (trace s).
Proof.
  unfold ObjectClient.stop. destruct (abortController_ s); fields; [|done].
  rewrite requests_app. apply app_nil_r.
Qed.

Lemma requests_resume at_ r s :
  requests (trace (resume at_ r s).2) = requests (trace s).
Proof.
  destruct (resume_cases at_ r s)
    as [->|[[reason ->]|[[value ->]|[[latestObject ->]|
        (latestObject & thrown_ & ->)]]]]; [done| |done| |].
  - apply requests_catch.
  - simpl. rewrite requests_app, requests_finished. apply app_nil_r.
  - rewrite requests_catch. simpl.
    rewrite requests_app, requests_finished. apply app_nil_r.
Qed.

Lemma next_controller_catch reason s :
  next_controller (catch_ reason s) = next_controller s.
Proof. by destruct (catch_cases reason s) as [[_ ->]|[[_ ->]|[_ ->]]]. Qed.

Lemma next_controller_resume at_ r s :
  next_controller (resume at_ r s).2 = next_controller s.
Proof.
  destruct (resume_cases at_ r s)
    as [->|[[reason ->]|[[value ->]|[[latestObject ->]|
        (latestObject & thrown_ & ->)]]]]; try done.
  - apply next_controller_catch.
  - by rewrite next_controller_catch.
Qed.

(** What one event adds to the requests. *)
Lemma step_requests sys ev :
  requests (trace (client (step sys ev))) =
  requests (trace (client sys)) ++
  match ev with
  | CallSubmit input =>
      match JSON_stringify input with
      | Normal text => [request_for (next_controller (client sys)) text]
      | Throw _ => []
      end
  | _ => []
  end.
Proof.
  destruct ev as [input| |call r].
  - rewrite step_submit, submit_unfold.
    destruct (JSON_stringify input) as [text|reason]; simpl.
    + by rewrite requests_app.
    + by rewrite requests_catch, app_nil_r.
  - change (client (step sys CallStop)) with (stop (client sys)).
    by rewrite requests_stop, app_nil_r.
  - rewrite app_nil_r.
    destruct (calls sys !! call) as [at_|] eqn:Hcall.
    + rewrite (step_settle _ _ call at_) by done. apply requests_resume.
    + unfold ObjectClient.step. by rewrite Hcall.
Qed.

Lemma step_next_controller sys ev :
  next_controller (client (step sys ev)) =
  length (submitted [ev]) + next_controller (client sys).
Proof.
  destruct ev as [input| |call r].
  - rewrite step_submit, submit_unfold.
    destruct (JSON_stringify input) as [text|reason]; simpl; [done|].
    by rewrite next_controller_catch.
  - simpl. unfold ObjectClient.stop. by destruct (abortController_ (client sys)).
  - destruct (calls sys !! call) as [at_|] eqn:Hcall.
    + rewrite (step_settle _ _ call at_) by done. apply next_controller_resume.
    + unfold ObjectClient.step. by rewrite Hcall.
Qed.

Lemma submitted_snoc evs ev : submitted (evs ++ [ev]) = submitted evs ++ submitted [ev].
Proof. unfold submitted. apply omap_app. Qed.

(** Each [submit] allocates one controller, nothing else does. *)
Lemma controllers_allocated evs :
  next_controller (client (run boot evs)) = length (submitted evs).
Proof.
  induction evs as [|ev evs IH] using rev_ind; [done|].
  rewrite run_snoc, step_next_controller, IH, submitted_snoc, length_app.
  lia.
Qed.

(** X10. The requests a client has made are, in order, those of the
    [submit] calls whose input [JSON.stringify] accepted, one each, with
    that serialization as body: nothing else makes a request, and a
    [submit] is never answered from an earlier one. *)
Theorem requests_follow_submits evs :
  body <$> requests (trace (client (run boot evs))) =
  serializations (submitted evs).
Proof.
  induction evs as [|ev evs IH] using rev_ind; [done|].
  rewrite run_snoc, step_requests, fmap_app, IH, submitted_snoc.
  unfold serializations. rewrite omap_app. f_equal.
  destruct ev as [input| |call r]; try done. simpl.
  by destruct (JSON_stringify input).
Qed.

Lemma controllers_in_order_run evs :
  controllers_in_order (client (run boot evs)).
Proof.
  apply (fields_invariant controllers_in_order).
  - repeat split; [constructor | constructor | done].
  - intros s (Hlt & Hdup & Hcur). repeat split.
    + eapply Forall_impl; [exact Hlt|]. simpl. intros req. lia.
    + done.
    + simpl. by intros controller [= <-].
  - intros s text (Hlt & Hdup & Hcur). repeat split.
    + fields. rewrite requests_app. apply Forall_app. split.
      * eapply Forall_impl; [exact Hlt|]. simpl. intros req. lia.
      * by repeat constructor.
    + fields. rewrite requests_app, fmap_app. apply NoDup_app.
      repeat split; [done| |apply NoDup_singleton].
      intros c Hc Hc'. simpl in Hc'. apply list_elem_of_singleton in Hc'.
      subst c. apply list_elem_of_fmap in Hc as (req & Heq & Hreq).
      rewrite Forall_forall in Hlt. specialize (Hlt _ Hreq). lia.
    + simpl. by intros controller [= <-].
  - intros s reason Hs.
    destruct (catch_cases reason s) as [[_ ->]|[[_ ->]|[_ ->]]]; [done| |].
    all: unfold controllers_in_order in *; simpl.
    all: by rewrite requests_app, requests_reported, app_nil_r.
  - done.
  - intros s latestObject (Hlt & Hdup & Hcur).
    unfold controllers_in_order. simpl.
    rewrite requests_app, requests_finished, app_nil_r. done.
  - intros s (Hlt & Hdup & Hcur). unfold controllers_in_order.
    rewrite requests_stop. unfold ObjectClient.stop.
    by destruct (abortController_ s).
Qed.

(** X11. No two requests of a client share an abort signal: each
    [submit] makes its own controller. *)
Theorem request_signals_distinct evs :
  NoDup (signal <$> requests (trace (client (run boot evs)))).
Proof. by destruct (controllers_in_order_run evs) as (_ & Hdup & _). Qed.

(** X12. The controller the client holds, the one [stop] would abort, is
    always the one made by the latest [submit]; the requests of earlier
    calls carry other signals, so [stop] cannot reach them. *)
Theorem current_controller_is_latest evs controller :
  abortController_ (client (run boot evs)) = Some controller →
  S controller = length (submitted evs) ∧
  Forall (λ req, signal req ≤ controller)
         (requests (trace (client (run boot evs)))).
Proof.
  intros Hcur. destruct (controllers_in_order_run evs) as (Hlt & _ & Hlast).
  specialize (Hlast _ Hcur). split.
  - by rewrite Hlast, controllers_allocated.
  - eapply Forall_impl; [exact Hlt|]. simpl. intros req. lia.
Qed.

(** X13. The headers of every request are exactly these: the entries
    of a plain record of additional headers, and [Content-Type:
    application/json] unless the record has that name; a [Headers]
    instance, or no additional headers at all, leave [Content-Type]
    alone. *)
Theorem request_headers_exact evs req :
  req ∈ requests (trace (client (run boot evs))) →
  request_headers req =
    match headers options_ with
    | Some (HeadersRecord entries) =>
        entries ∪ {[ "Content-Type" := "application/json" ]}
    | Some (HeadersInstance _) | None =>
        {[ "Content-Type" := "application/json" ]}
    end.
Proof.
  intros Hin. unfold requests in Hin.
  apply list_elem_of_omap in Hin as (e & He & Hreq).
  pose proof (run_explained options_ evs) as Hall.
  rewrite Forall_forall in Hall. specialize (Hall _ He).
  destruct e as [via req'| | | |]; try done.
  simpl in Hreq. simplify_eq.
  destruct Hall as (input & controller & text & _ & _ & _ & ->).
  simpl. unfold spread, own_enumerable.
  destruct (headers options_) as [[entries|entries]|]; [done| |];
    apply (left_id_L ∅ (∪)).
Qed.

(** X14. While [loading] is set the client holds a controller: a [stop]
    then has something to abort. *)
Theorem loading_has_controller evs :
  loading (client (run boot evs)) = true →
  is_Some (abortController_ (client (run boot evs))).
Proof.
  apply (fields_invariant
           (λ s, loading s = true → is_Some (abortController_ s))); try done.
  intros s reason Hs.
  by destruct (catch_cases reason s) as [[_ ->]|[[_ ->]|[_ ->]]].
Qed.

(** ** [onFinish] *)

Lemma onFinish_calls_app tr tr' :
  onFinish_calls (tr ++ tr') = onFinish_calls tr ++ onFinish_calls tr'.
Proof. unfold onFinish_calls. apply omap_app. Qed.

Lemma onFinish_calls_reported e : onFinish_calls (reported e) = [].
Proof. unfold ObjectClient.reported. by destruct (onError options_). Qed.

Lemma onFinish_calls_catch reason s :
  onFinish_calls (trace (catch_ reason s)) = onFinish_calls (trace s).
Proof.
  rewrite trace_catch, onFinish_calls_app.
  destruct (isAbortError reason); rewrite ?onFinish_calls_reported;
    apply app_nil_r.
Qed.

Lemma length_onFinish_calls_finished latestObject :
  length (onFinish_calls (finished latestObject)) ≤ 1.
Proof. unfold ObjectClient.finished. destruct (onFinish options_); simpl; lia. Qed.

(** A call that goes on waiting has let nothing out; one that ends
    has called [onFinish] at most once. *)
Lemma resume_progress at_ r s :
  (∃ at', (resume at_ r s).1 = Suspended at' ∧
          trace (resume at_ r s).2 = trace s) ∨
  ((∀ call pending,
      park call (resume at_ r s).1 pending = delete call pending) ∧
   length (onFinish_calls (trace (resume at_ r s).2)) ≤
   S (length (onFinish_calls (trace s)))).
Proof.
  assert (∀ reason s',
            length (onFinish_calls (trace s')) ≤
              S (length (onFinish_calls (trace s))) →
            (∀ call pending,
               park call (ended options_ reason s') pending =
               delete call pending) ∧
            length (onFinish_calls (trace (catch_ reason s'))) ≤
              S (length (onFinish_calls (trace s)))) as Hcatch.
  { intros reason s' Hs'. split.
    - intros call pending. apply park_ended.
    - by rewrite onFinish_calls_catch. }
  destruct r as [response|text|chunk| |reason].
  - destruct at_; try (left; by eexists).
    destruct (ok response) eqn:Hok.
    + destruct (response_body response) as [stream|] eqn:Hbody.
      * left. rewrite (resume_body _ _ stream) by done. by eexists.
      * right. rewrite resume_no_body by done. apply Hcatch. lia.
    + left. rewrite resume_not_ok by done. by eexists.
  - destruct at_; try (left; by eexists).
    right. rewrite resume_text. apply Hcatch. lia.
  - destruct at_ as [| |accumulatedText latestObject]; try (left; by eexists).
    left. rewrite resume_chunk. cbv zeta.
    destruct (isDeepEqualData latestObject _); by eexists.
  - destruct at_ as [| |accumulatedText latestObject]; try (left; by eexists).
    right.
    assert (length (onFinish_calls (trace (closed latestObject s))) ≤
            S (length (onFinish_calls (trace s)))) as Hclosed.
    { simpl. rewrite onFinish_calls_app, length_app.
      pose proof (length_onFinish_calls_finished latestObject). lia. }
    rewrite resume_closed.
    destruct (onFinish_outcome options_ latestObject); [by split|].
    by apply Hcatch.
  - right. rewrite resume_rejected. apply Hcatch. lia.
Qed.

Lemma onFinish_calls_submit input s :
  onFinish_calls (trace (submit input s).2) = onFinish_calls (trace s).
Proof.
  rewrite submit_unfold.
  destruct (JSON_stringify input) as [text|reason]; simpl.
  - rewrite onFinish_calls_app. apply app_nil_r.
  - by rewrite onFinish_calls_catch.
Qed.

Lemma onFinish_calls_stop s :
  onFinish_calls (trace (stop s)) = onFinish_calls (trace s).
Proof.
  unfold ObjectClient.stop. destruct (abortController_ s); fields; [|done].
  rewrite onFinish_calls_app. apply app_nil_r.
Qed.

(** The calls that returned through [onFinish] and those still pending
    are all among the calls made. *)
Lemma calls_accounted evs :
  let sys := run boot evs in
  (∀ call, is_Some (calls sys !! call) → call < next_call sys) ∧
  length (onFinish_calls (trace (client sys))) + size (calls sys)
    ≤ next_call sys ∧
  next_call sys = length (submitted evs).
Proof.
  cbv zeta. induction evs as [|ev evs IH] using rev_ind.
  - repeat split; simpl; [|by rewrite map_size_empty].
    intros call [at_ Hcall]. by rewrite lookup_empty in Hcall.
  - destruct IH as (Hkeys & Hcount & Hnext).
    rewrite run_snoc, submitted_snoc, length_app.
    set (sys := run boot evs) in *.
    assert (calls sys !! next_call sys = None) as Hfresh.
    { destruct (calls sys !! next_call sys) eqn:E; [|done].
      assert (next_call sys < next_call sys) by (apply Hkeys; by eexists).
      lia. }
    destruct ev as [input| |call r].
    + rewrite step_submit. cbn [client calls ObjectClient.next_call].
      rewrite onFinish_calls_submit, submit_unfold.
      destruct (JSON_stringify input); cbn [fst park]; rewrite ?park_ended;
        simpl; repeat split.
      * intros call Hcall. destruct (decide (call = next_call sys)) as [->|Hne];
          [lia|]. rewrite lookup_insert_ne in Hcall by done.
        apply Hkeys in Hcall. lia.
      * rewrite map_size_insert, Hfresh. lia.
      * lia.
      * intros call Hcall. destruct (decide (call = next_call sys)) as [->|Hne];
          [lia|]. rewrite lookup_delete_ne in Hcall by done.
        apply Hkeys in Hcall. lia.
      * rewrite map_size_delete, Hfresh. simpl. lia.
      * lia.
    + change (client (step sys CallStop)) with (stop (client sys)).
      rewrite onFinish_calls_stop. simpl. repeat split; [done|lia|lia].
    + change (length (submitted [Settle call r])) with 0.
      rewrite Nat.add_0_r.
      destruct (calls sys !! call) as [at_|] eqn:Hcall.
      * rewrite (step_settle _ _ call at_) by done.
        cbn [client calls ObjectClient.next_call].
        destruct (resume_progress at_ r (client sys))
          as [(at' & -> & Htrace)|[-> Hlength]]; cbn [park]; repeat split.
        -- intros other Hother.
           destruct (decide (other = call)) as [->|Hne];
             [apply Hkeys; by eexists|].
           rewrite lookup_insert_ne in Hother by done. by apply Hkeys.
        -- rewrite map_size_insert, Hcall, Htrace. simpl. lia.
        -- done.
        -- intros other Hother.
           destruct (decide (other = call)) as [->|Hne];
             [apply Hkeys; by eexists|].
           rewrite lookup_delete_ne in Hother by done. by apply Hkeys.
        -- rewrite map_size_delete, Hcall. simpl.
           assert (0 < size (calls sys)).
           { destruct (decide (size (calls sys) = 0)) as [Hz|]; [|lia].
             apply map_size_empty_iff in Hz. rewrite Hz in Hcall.
             by rewrite lookup_empty in Hcall. }
           lia.
        -- done.
      * unfold ObjectClient.step. rewrite Hcall. by repeat split.
Qed.

(** X15. [onFinish] is called at most once for each [submit]: the
    calls it has had, together with the calls still in flight, never
    outnumber the [submit] calls made. *)
Theorem onFinish_at_most_once_per_submit evs :
  length (onFinish_calls (trace (client (run boot evs)))) +
  size (calls (run boot evs)) ≤ length (submitted evs).
Proof.
  destruct (calls_accounted evs) as (_ & Hcount & Hnext). cbv zeta in *.
  by rewrite <- Hnext.
Qed.

(** ** One call from end to end *)

Lemma absorb_text chunks : ∀ locals,
  (foldl absorb locals chunks).1 = foldl String.append locals.1 chunks.
Proof.
  induction chunks as [|chunk chunks IH]; intros locals; [done|].
  simpl. by rewrite IH.
Qed.

Lemma absorb_received chunks :
  (foldl absorb (EmptyString, VUndefined) chunks).1 = received chunks.
Proof. by rewrite absorb_text. Qed.

Lemma absorb_latest chunks :
  let locals := foldl absorb (EmptyString, VUndefined) chunks in
  (chunks = [] ∧ locals.2 = VUndefined) ∨
  locals.2 = parsePartialJson (received chunks) ∨
  isDeepEqualData locals.2 (parsePartialJson (received chunks)) = true.
Proof.
  cbv zeta. rewrite <- absorb_received.
  destruct chunks as [|chunk chunks _] using rev_ind; [by left|].
  right. apply (latest_is_last_parse chunks chunk).
Qed.

(** X16. A call on its own (no other [submit] while it runs), whose
    response is ok and has a body: after any number of chunks the call
    waits on the stream with all chunks appended in order as its text;
    the [object] getter shows the value the call published last, which is
    [undefined] before the first chunk and afterwards the parse of the
    whole text or a value deep-equal to it; [error] is unset and
    [loading] is set. *)
Theorem lone_call_streams sys input text response stream chunks :
  JSON_stringify input = Normal text →
  ok response = true →
  response_body response = Some stream →
  let sys' := run sys (streaming (next_call sys) input response chunks) in
  calls sys' !! next_call sys =
    Some (AwaitPipeTo (received chunks) (object (client sys'))) ∧
  ((chunks = [] ∧ object (client sys') = VUndefined) ∨
   object (client sys') = parsePartialJson (received chunks) ∨
   isDeepEqualData (object (client sys'))
     (parsePartialJson (received chunks)) = true) ∧
  error (client sys') = None ∧
  loading (client sys') = true.
Proof.
  intros Htext Hok Hbody. cbv zeta.
  destruct (latest_is_published options_ sys input text response stream chunks
              Htext Hok Hbody) as (Hcall & Hobj & Herr & Hload & _).
  cbv zeta in *. rewrite Hobj. repeat split; try done.
  - by rewrite Hcall, absorb_received.
  - apply absorb_latest.
Qed.

(** X19. For such a call the comparison the sink makes is one with the
    value the [object] getter shows: the next chunk is skipped when the
    parse of all the text received is deep-equal to the visible value, and
    the client is left as it is; otherwise the parse becomes the visible
    value, by one write to the map. *)
Theorem lone_call_skips_equal_parse
    sys input text response stream chunks chunk :
  JSON_stringify input = Normal text →
  ok response = true →
  response_body response = Some stream →
  let streamed := run sys (streaming (next_call sys) input response chunks) in
  let currentObject := parsePartialJson (received (chunks ++ [chunk])) in
  let sys' := step streamed (Settle (next_call sys) (PipeChunk chunk)) in
  if isDeepEqualData (object (client streamed)) currentObject then
    client sys' = client streamed
  else
    object (client sys') = currentObject ∧
    sets (client sys') = sets (client streamed) ++ [(id_, currentObject)].
Proof.
  intros Htext Hok Hbody. cbv zeta.
  destruct (latest_is_published options_ sys input text response stream chunks
              Htext Hok Hbody) as (Hcall & Hobj & _).
  cbv zeta in *.
  rewrite (step_settle _ _ _ _ _ Hcall), resume_chunk. cbv zeta.
  rewrite Hobj, absorb_received.
  replace (received (chunks ++ [chunk]))
    with (String.append (received chunks) chunk)
    by (unfold received; by rewrite foldl_snoc).
  destruct (isDeepEqualData _ _); cbn [fst snd client]; [done|].
  split; [|done].
  unfold ObjectClient.object, map_get. fields. by rewrite lookup_insert_eq.
Qed.

(** X17. When the stream of such a call then closes, the call ends.
    If [onFinish] comes back, or there is none: [loading] is cleared, the
    controller forgotten and [error] unset; the [object] getter keeps the
    last published value; and all that left the client is the one request
    and, if an [onFinish] callback is there, the validation of that very
    value and the call of [onFinish] with its outcome.  If [onFinish]
    throws, the [catch] block takes over from there with what it threw. *)
Theorem lone_call_completes sys input text response stream chunks :
  JSON_stringify input = Normal text →
  ok response = true →
  response_body response = Some stream →
  let streamed := run sys (streaming (next_call sys) input response chunks) in
  let sys' := run sys (completed (next_call sys) input response chunks) in
  calls sys' !! next_call sys = None ∧
  match onFinish_outcome options_ (object (client streamed)) with
  | Normal _ =>
      object (client sys') = object (client streamed) ∧
      error (client sys') = None ∧
      loading (client sys') = false ∧
      abortController_ (client sys') = None ∧
      trace (client sys') =
        trace (client sys) ++
        EFetch actualFetch (request_for (next_controller (client sys)) text) ::
        finished (object (client sys'))
  | Throw thrown_ =>
      client sys' =
        catch_ thrown_ (closed (object (client streamed)) (client streamed))
  end.
Proof.
  intros Htext Hok Hbody. cbv zeta.
  destruct (latest_is_published options_ sys input text response stream chunks
              Htext Hok Hbody) as (Hcall & Hobj & Herr & Hload & Htrace).
  cbv zeta in *. unfold completed. rewrite run_app.
  set (streamed := run sys (streaming (next_call sys) input response chunks))
    in *.
  change (run streamed [Settle (next_call sys) PipeClosed])
    with (step streamed (Settle (next_call sys) PipeClosed)).
  rewrite (step_settle _ _ _ _ _ Hcall), resume_closed, Hobj.
  destruct (onFinish_outcome options_ _) as [[]|thrown_];
    cbn [fst snd client calls park].
  - split; [apply lookup_delete_eq|].
    unfold ObjectClient.object in *.
    cbn [closed objects_ error loading error_ loading_ abortController_ trace].
    repeat split; try done.
    rewrite Htrace, Hobj. by rewrite <- app_assoc.
  - rewrite park_ended. split; [apply lookup_delete_eq | done].
Qed.

End Facts.

End ObjectClientRuns.

(** * Further properties of the middleware *)

Module DefaultSettingsKeys.
Import DefaultSettings.

Section Facts.

Context (mergeObjects : js_value → js_value → js_value).

(** X18. The keys of what [transformParams] returns are those of the
    settings, those of the params, and [providerMetadata]: that key is
    always there, also when neither side has it (its value is then what
    [mergeObjects] makes of two [undefined]). *)
Theorem transformParams_keys settings params :
  dom (transformParams (defaultSettingsMiddleware mergeObjects settings) params)
  = {[ "providerMetadata" ]} ∪ dom params ∪ dom settings.
Proof.
  simpl. unfold spread.
  rewrite dom_insert_L, dom_union_L. by rewrite (assoc_L (∪)).
Qed.

End Facts.

End DefaultSettingsKeys.

(** * The further properties at work on the sample client *)

Module MoreRuns.
Import ObjectClient ObjectClientFacts Observations ObjectClientRuns.
Import Sample Scenarios.

(** The stream of the sample call breaks with the value ["offline"]. *)
Lemma rejection_is_reported_witness :
  calls mid_stream !! 0 = Some (AwaitPipeTo "4" (VNum 4)) ∧
  isAbortError offline = false ∧
  failed options 0 (new_Error "offline") mid_stream
    (step options mid_stream (Settle 0 (Rejected offline))).
Proof.
  assert (calls mid_stream !! 0 = Some (AwaitPipeTo "4" (VNum 4))) as Hcall
    by (vm_compute; reflexivity).
  split; [exact Hcall|]. split; [reflexivity|].
  exact (rejection_is_reported options mid_stream 0 _ offline Hcall eq_refl).
Defined.


(** An input with a [bigint] in it. *)
Lemma unserializable_input_is_reported_witness :
  JSON_stringify unserializable = Throw bigint_error ∧
  isAbortError bigint_error = false ∧
  calls (step options (boot options) (CallSubmit unserializable))
    = delete 0 (calls (boot options)) ∧
  next_call (step options (boot options) (CallSubmit unserializable)) = 1 ∧
  onFinish_calls
    (trace (client (step options (boot options) (CallSubmit unserializable))))
    = onFinish_calls (trace (client (boot options))) ∧
  (is_Some (onError options) →
   {| name := "TypeError";
      message := "Do not know how to serialize a BigInt" |}
     ∈ onError_calls
         (trace (client (step options (boot options)
                           (CallSubmit unserializable))))) ∧
  (onError_returns options
     {| name := "TypeError";
        message := "Do not know how to serialize a BigInt" |} = true →
   error (client (step options (boot options) (CallSubmit unserializable)))
     = Some {| name := "TypeError";
               message := "Do not know how to serialize a BigInt" |} ∧
   loading (client (step options (boot options) (CallSubmit unserializable)))
     = false) ∧
  (onError options = None →
   trace (client (step options (boot options) (CallSubmit unserializable)))
     = trace (client (boot options)) ∧
   object options
     (client (step options (boot options) (CallSubmit unserializable)))
     = VUndefined).
Proof.
  split; [reflexivity|]. split; [reflexivity|].
  exact (unserializable_input_is_reported options (boot options) unserializable
           bigint_error eq_refl eq_refl).
Defined.

(** The sample stream closes; a [stop] follows. *)
Lemma close_disarms_stop_witness :
  calls mid_stream !! 0 = Some (AwaitPipeTo "4" (VNum 4)) ∧
  loading (client (step options mid_stream (Settle 0 PipeClosed))) = false ∧
  abortController_ (client (step options mid_stream (Settle 0 PipeClosed)))
    = None ∧
  (∀ other, other ≠ 0 →
     calls (step options mid_stream (Settle 0 PipeClosed)) !! other =
     calls mid_stream !! other) ∧
  client (step options (step options mid_stream (Settle 0 PipeClosed)) CallStop)
    = client (step options mid_stream (Settle 0 PipeClosed)).
Proof.
  assert (calls mid_stream !! 0 = Some (AwaitPipeTo "4" (VNum 4))) as Hcall
    by (vm_compute; reflexivity).
  split; [exact Hcall|].
  exact (close_disarms_stop options mid_stream 0 "4" (VNum 4) Hcall).
Defined.

(** A second [submit] in the middle of the sample stream. *)
Lemma submit_keeps_earlier_calls_witness :
  0 ≠ next_call mid_stream ∧
  calls (step options mid_stream (CallSubmit (VNum 8))) !! 0 =
    calls mid_stream !! 0 ∧
  aborted (trace (client (step options mid_stream (CallSubmit (VNum 8))))) =
    aborted (trace (client mid_stream)).
Proof.
  assert (0 ≠ next_call mid_stream) as Hother
    by (vm_compute; discriminate).
  split; [exact Hother|].
  exact (submit_keeps_earlier_calls options mid_stream (VNum 8) 0 Hother).
Defined.

(** ... and the chunk ["2"] of the first call after it: [42] shows up
    under the second call. *)
Lemma stale_chunk_after_second_submit_witness :
  calls mid_stream !! 0 = Some (AwaitPipeTo "4" (VNum 4)) ∧
  0 ≠ next_call mid_stream ∧
  object options
    (client (run options mid_stream
               [CallSubmit (VNum 8); Settle 0 (PipeChunk "2")])) = VNum 42.
Proof.
  assert (calls mid_stream !! 0 = Some (AwaitPipeTo "4" (VNum 4))) as Hcall
    by (vm_compute; reflexivity).
  assert (0 ≠ next_call mid_stream) as Hother
    by (vm_compute; discriminate).
  split; [exact Hcall|]. split; [exact Hother|].
  exact (stale_chunk_after_second_submit options mid_stream 0 "4" (VNum 4)
           (VNum 8) "2" Hcall Hother).
Defined.

(** The error of the failing call, as [onError] got it. *)
Lemma onError_never_gets_abort_witness :
  new_Error "gone"
    ∈ onError_calls (trace (client (run options (boot options) failing_call))) ∧
  ∃ reason, isAbortError reason = false ∧ new_Error "gone" = coalesce reason.
Proof.
  assert (new_Error "gone"
            ∈ onError_calls
                (trace (client (run options (boot options) failing_call))))
    as Hin.
  { apply (list_elem_of_lookup_2 _ 0). vm_compute. reflexivity. }
  split; [exact Hin|].
  exact (onError_never_gets_abort options failing_call _ Hin).
Defined.

(** ... and as the [error] field holds it. *)
Lemma stored_error_was_reported_witness :
  error (client (run options (boot options) failing_call)) =
    Some (new_Error "gone") ∧
  (∃ reason, isAbortError reason = false ∧ new_Error "gone" = coalesce reason) ∧
  (is_Some (onError options) →
   new_Error "gone"
     ∈ onError_calls (trace (client (run options (boot options) failing_call)))).
Proof.
  assert (error (client (run options (boot options) failing_call)) =
          Some (new_Error "gone")) as Herr by (vm_compute; reflexivity).
  split; [exact Herr|].
  exact (stored_error_was_reported options failing_call _ Herr).
Defined.

(** After two calls the client holds the second controller. *)
Lemma current_controller_is_latest_witness :
  abortController_ (client (run options (boot options) two_submits)) = Some 1 ∧
  2 = length (submitted two_submits) ∧
  Forall (λ req, signal req ≤ 1)
         (requests (trace (client (run options (boot options) two_submits)))).
Proof.
  assert (abortController_ (client (run options (boot options) two_submits))
          = Some 1) as Hcur by (vm_compute; reflexivity).
  split; [exact Hcur|].
  exact (current_controller_is_latest options two_submits 1 Hcur).
Defined.

(** The headers of the sample request. *)
Lemma request_headers_exact_witness :
  request_for options 0 (Some "7")
    ∈ requests (trace (client (run options (boot options)
                                 (whole_call ["4"; "2"])))) ∧
  request_headers (request_for options 0 (Some "7")) =
    {[ "Authorization" := "Bearer t" ]} ∪
    {[ "Content-Type" := "application/json" ]}.
Proof.
  assert (request_for options 0 (Some "7")
            ∈ requests (trace (client (run options (boot options)
                                         (whole_call ["4"; "2"]))))) as Hin.
  { apply (list_elem_of_lookup_2 _ 0). vm_compute. reflexivity. }
  split; [exact Hin|].
  exact (request_headers_exact options (whole_call ["4"; "2"]) _ Hin).
Defined.

(** A call waiting for its response. *)
Lemma loading_has_controller_witness :
  loading (client (run options (boot options) [CallSubmit (VNum 7)])) = true ∧
  is_Some (abortController_
             (client (run options (boot options) [CallSubmit (VNum 7)]))).
Proof.
  assert (loading (client (run options (boot options) [CallSubmit (VNum 7)]))
          = true) as Hload by (vm_compute; reflexivity).
  split; [exact Hload|].
  exact (loading_has_controller options [CallSubmit (VNum 7)] Hload).
Defined.

(** The sample call on the chunks ["4"] and ["2"]. *)
Lemma lone_call_streams_witness :
  JSON_stringify (VNum 7) = Normal (Some "7") ∧
  ok ok_response = true ∧
  response_body ok_response = Some 0 ∧
  calls (run options (boot options)
           (streaming 0 (VNum 7) ok_response ["4"; "2"])) !! 0 =
    Some (AwaitPipeTo (received ["4"; "2"])
            (object options
               (client (run options (boot options)
                          (streaming 0 (VNum 7) ok_response ["4"; "2"]))))) ∧
  error (client (run options (boot options)
                   (streaming 0 (VNum 7) ok_response ["4"; "2"]))) = None ∧
  loading (client (run options (boot options)
                     (streaming 0 (VNum 7) ok_response ["4"; "2"]))) = true.
Proof.
  assert (JSON_stringify (VNum 7) = Normal (Some "7")) as Htext
    by (vm_compute; reflexivity).
  split; [exact Htext|]. split; [reflexivity|]. split; [reflexivity|].
  destruct (lone_call_streams options (boot options) (VNum 7) (Some "7")
              ok_response 0 ["4"; "2"] Htext eq_refl eq_refl)
    as (Hcall & _ & Herr & Hload).
  exact (conj Hcall (conj Herr Hload)).
Defined.

(** After the chunk ["4"], the chunk ["2"] makes [42] of the visible
    [4]. *)
Lemma lone_call_skips_equal_parse_witness :
  JSON_stringify (VNum 7) = Normal (Some "7") ∧
  ok ok_response = true ∧
  response_body ok_response = Some 0 ∧
  object options
    (client (step options
               (run options (boot options)
                  (streaming 0 (VNum 7) ok_response ["4"]))
               (Settle 0 (PipeChunk "2")))) = VNum 42 ∧
  sets (client (step options
                  (run options (boot options)
                     (streaming 0 (VNum 7) ok_response ["4"]))
                  (Settle 0 (PipeChunk "2")))) =
    sets (client (run options (boot options)
                    (streaming 0 (VNum 7) ok_response ["4"]))) ++
    [("client", VNum 42)].
Proof.
  assert (JSON_stringify (VNum 7) = Normal (Some "7")) as Htext
    by (vm_compute; reflexivity).
  split; [exact Htext|]. split; [reflexivity|]. split; [reflexivity|].
  pose proof (lone_call_skips_equal_parse options (boot options) (VNum 7)
                (Some "7") ok_response 0 ["4"] "2" Htext eq_refl eq_refl)
    as Hchunk.
  vm_compute in Hchunk. vm_compute. exact Hchunk.
Defined.

(** ... and on to the close of its stream. *)
Lemma lone_call_completes_witness :
  JSON_stringify (VNum 7) = Normal (Some "7") ∧
  ok ok_response = true ∧
  response_body ok_response = Some 0 ∧
  calls (run options (boot options)
           (completed 0 (VNum 7) ok_response ["4"; "2"])) !! 0 = None ∧
  object options
    (client (run options (boot options)
               (completed 0 (VNum 7) ok_response ["4"; "2"]))) =
  object options
    (client (run options (boot options)
               (streaming 0 (VNum 7) ok_response ["4"; "2"]))) ∧
  error (client (run options (boot options)
                   (completed 0 (VNum 7) ok_response ["4"; "2"]))) = None ∧
  loading (client (run options (boot options)
                     (completed 0 (VNum 7) ok_response ["4"; "2"]))) = false ∧
  abortController_
    (client (run options (boot options)
               (completed 0 (VNum 7) ok_response ["4"; "2"]))) = None ∧
  trace (client (run options (boot options)
                   (completed 0 (VNum 7) ok_response ["4"; "2"]))) =
    trace (client (boot options)) ++
    EFetch (actualFetch options) (request_for options 0 (Some "7")) ::
    finished options
      (object options
         (client (run options (boot options)
                    (completed 0 (VNum 7) ok_response ["4"; "2"])))).
Proof.
  assert (JSON_stringify (VNum 7) = Normal (Some "7")) as Htext
    by (vm_compute; reflexivity).
  split; [exact Htext|]. split; [reflexivity|]. split; [reflexivity|].
  exact (lone_call_completes options (boot options) (VNum 7) (Some "7")
           ok_response 0 ["4"; "2"] Htext eq_refl eq_refl).
Defined.

End MoreRuns.
